(** * Authentication-OAuth-API: the credential and token service of
    [src/authAPI/main.py], embedded in Rocq.

    The module under study is one FastAPI file.  Its own logic is the
    control flow around four collaborators it imports: [secrets] (random
    bytes), [passlib] (bcrypt), [jwt] (PyJWT, HS256 tokens) and a SQLAlchemy
    session over one SQLite table.  The embedding keeps that shape:

    - Python exceptions are an error monad ([Py.result]); what the
      collaborators raise is kept, also where the module catches none of it;
    - [datetime] and [timedelta] are integers counting microseconds, which is
      the resolution both types have in Python, and a sum that leaves the
      years 1 to 9999 raises;
    - the operating system's random source is a tape of bytes, consumed from
      the front;
    - the [users] table is the list of its rows in rowid order, guarded by
      the UNIQUE constraints the model class declares;
    - the two cryptographic primitives (HMAC-SHA-256 and bcrypt) are the
      methods of a type class, so every theorem holds for whatever functions
      implement them. *)

From Stdlib Require Import ZArith List String Ascii Bool Lia.
From Stdlib.Strings Require Import Byte.
From Stdlib Require Import DecimalString.
Import ListNotations.

Local Open Scope string_scope.
Local Open Scope list_scope.
Local Open Scope Z_scope.

(* ===================================================================== *)
(** * Python: values, exceptions and results *)
(* ===================================================================== *)

Module Py.

(** What a JSON claim can hold once parsed, as far as this program tells
    the cases apart when it hands the claim to the database: a string; a
    number or a boolean that SQLite takes, and compares with a text column
    as the text it spells; an integer beyond 64 bits, which the driver
    refuses with an [OverflowError]; an array or an object, which the driver
    cannot bind at all.  JSON [null] under [sub] is Python's [None], the
    same as an absent claim under [dict.get]; under [jti], which is never
    looked up, it counts with the numbers: not a string. *)
Inductive value : Type :=
| PyStr (s : string)
| PyScalar (text : string)
| PyBigInt
| PyContainer.

(** The subclasses of [jwt.exceptions.InvalidTokenError] that decoding an
    HS256 token can raise. *)
Inductive InvalidTokenKind : Type :=
| DecodeError
| InvalidAlgorithmError
| InvalidSignatureError
| ExpiredSignatureError
| ImmatureSignatureError
| InvalidIssuedAtError
| InvalidAudienceError
| InvalidSubjectError
| InvalidJTIError.

(** The exceptions that travel through the module.  [HTTPException] is
    FastAPI's.  [IntegrityError] is what SQLAlchemy raises when a commit
    violates a constraint of the table, [DBAPIError] what it raises when the
    driver refuses to bind a parameter.  [PasswordValueError] and
    [UnknownHashError] are passlib's, for a password it will not hash and
    for a hash it does not recognise.  The others are Python's own:
    [OverflowError] for a date or an integer out of range, [TypeError] for
    [int()] of something that is no number, [RecursionError] for JSON nested
    deeper than the interpreter's stack, [AttributeError] for an attribute
    read on [None]. *)
Inductive exn : Type :=
| HTTPException (status_code : Z) (detail : string)
                (headers : list (string * string))
| InvalidTokenError (kind : InvalidTokenKind)
| IntegrityError
| DBAPIError
| PasswordValueError
| UnknownHashError
| OverflowError
| TypeError
| RecursionError
| AttributeError.

Inductive result (A : Type) : Type :=
| Return (a : A)
| Raise (e : exn).
Arguments Return {A} a.
Arguments Raise {A} e.

Definition bind {A B : Type} (m : result A) (k : A -> result B) : result B :=
  match m with
  | Return a => k a
  | Raise e => Raise e
  end.

(** [try: body / except InvalidTokenError: handler].  Any other exception
    leaves the [try] statement untouched. *)
Definition try_except_InvalidTokenError {A : Type}
    (body : result A) (handler : result A) : result A :=
  match body with
  | Raise (InvalidTokenError _) => handler
  | other => other
  end.

(** What the transport answers: the status of an [HTTPException] when one
    is raised, 500 (Starlette's server-error middleware) for any exception
    nobody handles, 200 otherwise. *)
Definition http_status {A : Type} (r : result A) : Z :=
  match r with
  | Return _ => 200
  | Raise (HTTPException status_code _ _) => status_code
  | Raise _ => 500
  end.

Definition is_client_error (status : Z) : bool :=
  (400 <=? status) && (status <=? 499).

End Py.

Import Py.

Notation "x <- m ;; k" := (Py.bind m (fun x => k))
  (at level 61, m at next level, right associativity).

(* ===================================================================== *)
(** * datetime and timedelta *)
(* ===================================================================== *)

(** An aware UTC [datetime] is the number of microseconds since the epoch;
    a [timedelta] is a signed number of microseconds. *)
Definition datetime := Z.
Definition timedelta := Z.

Definition microseconds_per_second : Z := 1000000.

Definition timedelta_seconds (s : Z) : timedelta := s * microseconds_per_second.
Definition timedelta_minutes (m : Z) : timedelta := timedelta_seconds (m * 60).

(** [bool(td)]: a timedelta is falsy exactly when it is [timedelta(0)]. *)
Definition timedelta_bool (td : timedelta) : bool := negb (td =? 0).

(** [datetime.min] and [datetime.max]: 0001-01-01 00:00:00 and
    9999-12-31 23:59:59.999999. *)
Definition datetime_min : datetime := -62135596800000000.
Definition datetime_max : datetime := 253402300799999999.

Definition representable (dt : Z) : bool :=
  (datetime_min <=? dt) && (dt <=? datetime_max).

(** [dt + delta]: a result outside the years 1 to 9999 raises
    [OverflowError]. *)
Definition datetime_add (dt : datetime) (delta : timedelta) : result datetime :=
  if representable (dt + delta) then Return (dt + delta) else Raise OverflowError.

(** [calendar.timegm(dt.utctimetuple())]: whole seconds since the epoch, the
    microsecond field dropped. *)
Definition timegm (dt : datetime) : Z := dt / microseconds_per_second.

(* ===================================================================== *)
(** * secrets: random bytes rendered as hexadecimal *)
(* ===================================================================== *)

(** The system's random source: byte [i] is the [i]-th byte it will hand
    out next. *)
Definition entropy := nat -> byte.

(** [secrets.token_bytes(nbytes)]: the next [nbytes] bytes, and the tape
    that is left. *)
Definition token_bytes (nbytes : nat) (tape : entropy) : list byte * entropy :=
  (List.map tape (seq 0 nbytes), fun i => tape (nbytes + i)%nat).

(** One hexadecimal digit, lowercase, as [binascii.hexlify] writes it. *)
Definition hex_digit (n : N) : ascii :=
  if (n <? 10)%N then ascii_of_N (48 + n) else ascii_of_N (87 + n).

Fixpoint hexlify (bs : list byte) : string :=
  match bs with
  | [] => EmptyString
  | b :: rest =>
      let n := Byte.to_N b in
      String (hex_digit (n / 16)%N) (String (hex_digit (n mod 16)%N) (hexlify rest))
  end.

(** [secrets.token_hex(nbytes)]. *)
Definition token_hex (nbytes : nat) (tape : entropy) : string * entropy :=
  let (bs, tape') := token_bytes nbytes tape in
  (hexlify bs, tape').

(** [str.upper] on one character: ASCII lowercase letters move to their
    capitals, everything else stays. *)
Definition ascii_upper (c : ascii) : ascii :=
  let n := N_of_ascii c in
  if ((97 <=? n) && (n <=? 122))%N then ascii_of_N (n - 32) else c.

Fixpoint upper (s : string) : string :=
  match s with
  | EmptyString => EmptyString
  | String c rest => String (ascii_upper c) (upper rest)
  end.

(** [generate_random_hex(bytes_length=32)]. *)
Definition generate_random_hex (bytes_length : nat) (tape : entropy)
  : string * entropy :=
  token_hex bytes_length tape.

(** [generate_client_id()]. *)
Definition generate_client_id (tape : entropy) : string * entropy :=
  let (h, tape') := token_hex 7 tape in
  (upper h, tape').

(** Character classes used to state the format of the generated strings. *)
Definition is_lower_hex (c : ascii) : bool :=
  let n := N_of_ascii c in
  (((48 <=? n) && (n <=? 57)) || ((97 <=? n) && (n <=? 102)))%N.

Definition is_upper_hex (c : ascii) : bool :=
  let n := N_of_ascii c in
  (((48 <=? n) && (n <=? 57)) || ((65 <=? n) && (n <=? 70)))%N.

Fixpoint string_forallb (p : ascii -> bool) (s : string) : bool :=
  match s with
  | EmptyString => true
  | String c rest => p c && string_forallb p rest
  end.


(* ===================================================================== *)
(** * jwt: compact HS256 tokens (PyJWT) *)
(* ===================================================================== *)

Module jwt.

(** The JOSE header of a token. *)
Record header : Type := { alg : string; typ : string }.

(** An [aud] claim: one string or an array of strings. *)
Inductive aud_claim : Type :=
| aud_one (s : string)
| aud_many (l : list string).

(** What sits under [exp], [nbf] or [iat] in a token, told by what
    [int(value)] makes of it, which is all the library asks of it: an
    integer [n] (a JSON integer, a float or a boolean, a string of digits);
    a [ValueError] (any other string, NaN); a [TypeError] (null, an array,
    an object); an [OverflowError] (Infinity). *)
Inductive time_value : Type :=
| int_of (n : Z)
| int_ValueError
| int_TypeError
| int_OverflowError.

(** The claim set as it sits in a token.  These are the registered claims
    the library looks at when it verifies a token for a caller that names no
    issuer: [sub] and [jti] of any JSON type, the three time claims [exp],
    [nbf] and [iat], and [aud]. *)
Record claims : Type := {
  sub : option value;
  exp : option time_value;
  nbf : option time_value;
  iat : option time_value;
  aud : option aud_claim;
  jti : option value
}.

(** A time claim in the Python dictionary handed to [jwt.encode]: a number
    already, or still a [datetime]. *)
Inductive time_claim : Type :=
| NumericDate (seconds : Z)
| Datetime (dt : datetime).

(** The Python dictionary handed to [jwt.encode]. *)
Record payload_dict : Type := {
  dict_sub : option value;
  dict_exp : option time_claim;
  dict_nbf : option time_claim;
  dict_iat : option time_claim;
  dict_aud : option aud_claim;
  dict_jti : option value
}.

(** [to_encode.update({"exp": expire})]. *)
Definition update_exp (d : payload_dict) (expire : datetime) : payload_dict :=
  {| dict_sub := dict_sub d; dict_exp := Some (Datetime expire);
     dict_nbf := dict_nbf d; dict_iat := dict_iat d;
     dict_aud := dict_aud d; dict_jti := dict_jti d |}.

(** What a signature covers: the first two segments of the token. *)
Definition signing_input : Type := (header * claims)%type.

(** A token on the wire is a string.  Either it splits into three base64url
    segments holding a JSON header, a JSON claim set and a signature; or it
    does not, and every attempt to decode it raises [DecodeError]; or one of
    its JSON segments is nested deeper than the interpreter's recursion
    limit, and [json.loads] raises [RecursionError], which the library does
    not catch.  The tag is computed over the first two segments as they
    stand; here they stand as the header and the claim set they spell. *)
Record jws : Type := { protected : header; payload : claims; signature : string }.

Inductive token : Type :=
| compact (j : jws)
| unparseable (raw : string)
| too_deep (raw : string).

(** PyJWT's registry of symmetric algorithms: [hmac_sign alg key msg] is the
    tag algorithm [alg] computes over [msg] under [key] ([alg = "HS256"] is
    HMAC-SHA-256).  Verification recomputes the tag and compares. *)
Class Algorithms : Type := hmac_sign : string -> string -> signing_input -> string.

(** A [datetime] under [exp], [iat] or [nbf] becomes
    [timegm(value.utctimetuple())] before the claim set is serialised. *)
Definition numeric_date (t : time_claim) : time_value :=
  match t with
  | NumericDate seconds => int_of seconds
  | Datetime dt => int_of (timegm dt)
  end.

Section WithAlgorithms.
Context {algorithms_registry : Algorithms}.

(** [jwt.encode(payload, key, algorithm)]. *)
Definition encode (to_encode : payload_dict) (key : string) (algorithm : string) : token :=
  let h := {| alg := algorithm; typ := "JWT" |} in
  let c := {| sub := dict_sub to_encode;
              exp := option_map numeric_date (dict_exp to_encode);
              nbf := option_map numeric_date (dict_nbf to_encode);
              iat := option_map numeric_date (dict_iat to_encode);
              aud := dict_aud to_encode;
              jti := dict_jti to_encode |} in
  compact {| protected := h; payload := c; signature := hmac_sign algorithm key (h, c) |}.

(** Splitting and parsing the three segments. *)
Definition load (t : token) : result jws :=
  match t with
  | compact j => Return j
  | unparseable _ => Raise (InvalidTokenError DecodeError)
  | too_deep _ => Raise RecursionError
  end.

(** The header's algorithm must be one the caller allows; then the tag is
    recomputed under [key] and compared with the token's. *)
Definition verify_signature (j : jws) (key : string) (algorithms : list string)
  : result unit :=
  let a := alg (protected j) in
  if negb (existsb (String.eqb a) algorithms)
  then Raise (InvalidTokenError InvalidAlgorithmError)
  else if (hmac_sign a key (protected j, payload j) =? signature j)%string
       then Return tt
       else Raise (InvalidTokenError InvalidSignatureError).

(** [int(payload[claim])] as the validators call it: a [ValueError] becomes
    the token error [kind]; any other exception is not caught. *)
Definition int_claim (v : time_value) (kind : InvalidTokenKind) : result Z :=
  match v with
  | int_of n => Return n
  | int_ValueError => Raise (InvalidTokenError kind)
  | int_TypeError => Raise TypeError
  | int_OverflowError => Raise OverflowError
  end.

(** [_validate_iat] and [_validate_nbf]: a time still ahead of the clock
    raises.  [now] is [datetime.now(tz=timezone.utc).timestamp()], the clock
    in seconds with its fraction, and the claim a whole number of seconds;
    in microseconds [claim > now] is [claim * 10^6 > now]. *)
Definition validate_not_before (t : option time_value) (kind : InvalidTokenKind)
    (now : datetime) : result unit :=
  match t with
  | None => Return tt
  | Some v =>
      s <- int_claim v kind ;;
      if now <? s * microseconds_per_second
      then Raise (InvalidTokenError ImmatureSignatureError)
      else Return tt
  end.

(** [_validate_exp]: [exp <= now] raises; in microseconds that is
    [exp * 10^6 <= now].  A token without [exp] passes: the claim is not
    required. *)
Definition validate_exp (c : claims) (now : datetime) : result unit :=
  match exp c with
  | None => Return tt
  | Some v =>
      e <- int_claim v DecodeError ;;
      if e * microseconds_per_second <=? now
      then Raise (InvalidTokenError ExpiredSignatureError)
      else Return tt
  end.

(** [_validate_aud] for a caller that names no audience: a token whose
    [aud] is present and truthy is refused. *)
Definition validate_aud (c : claims) : result unit :=
  match aud c with
  | None | Some (aud_one EmptyString) | Some (aud_many []) => Return tt
  | Some _ => Raise (InvalidTokenError InvalidAudienceError)
  end.

(** [_validate_sub] and [_validate_jti]: when present, a string. *)
Definition validate_string (v : option value) (kind : InvalidTokenKind)
  : result unit :=
  match v with
  | None | Some (PyStr _) => Return tt
  | Some _ => Raise (InvalidTokenError kind)
  end.

(** [_validate_claims], in the library's order. *)
Definition validate_claims (c : claims) (now : datetime) : result unit :=
  _ <- validate_not_before (iat c) InvalidIssuedAtError now ;;
  _ <- validate_not_before (nbf c) DecodeError now ;;
  _ <- validate_exp c now ;;
  _ <- validate_aud c ;;
  _ <- validate_string (sub c) InvalidSubjectError ;;
  validate_string (jti c) InvalidJTIError.

(** [jwt.decode(token, key, algorithms, options={"verify_signature": v})].
    With [v = False] neither the signature nor any claim is looked at (the
    other [verify_*] options default to [v]). *)
Definition decode (t : token) (key : string) (algorithms : list string)
    (verify : bool) (now : datetime) : result claims :=
  j <- load t ;;
  if verify then
    _ <- verify_signature j key algorithms ;;
    _ <- validate_claims (payload j) now ;;
    Return (payload j)
  else Return (payload j).

End WithAlgorithms.

End jwt.

(* ===================================================================== *)
(** * passlib: the password-hashing context *)
(* ===================================================================== *)

(** [CryptContext(schemes=["bcrypt"])]: [context_hash password salt] is the
    bcrypt string for [password] under a fresh 16-byte [salt];
    [context_identify hashed] tells whether [hashed] is a bcrypt string at
    all; [context_verify password hashed] recomputes and compares.  The
    three are what the context does with a password it accepts. *)
Class CryptContext : Type := {
  context_hash : string -> list byte -> string;
  context_identify : string -> bool;
  context_verify : string -> string -> bool
}.

(** passlib's own limit on the size of a password. *)
Definition MAX_PASSWORD_SIZE : nat := 4096.

Definition has_nul (s : string) : bool :=
  negb (string_forallb (fun c => negb (Ascii.eqb c Ascii.zero)) s).

(** The passwords bcrypt under passlib will neither hash nor verify: one
    longer than [MAX_PASSWORD_SIZE], one holding a NUL. *)
Definition secret_refused (secret : string) : bool :=
  (MAX_PASSWORD_SIZE <? String.length secret)%nat || has_nul secret.

(* ===================================================================== *)
(** * The users table *)
(* ===================================================================== *)

(** A row of [users] ([class UserModel(Base)]). *)
Record UserModel : Type := {
  id : Z;
  username : string;
  email : string;
  hashed_password : string;
  activated : bool;
  secret_key : string;
  client_id : string
}.

(** A session sees the table as its rows, oldest first. *)
Definition Session : Type := list UserModel.

(** [SELECT ... WHERE users.username = ? LIMIT 1], once the parameter is
    bound to a text: the oldest row with that username. *)
Definition select_by_username (db : Session) (name : string) : option UserModel :=
  find (fun u => (username u =? name)%string) db.

(** The four [unique=True] columns: would inserting [row] collide with a
    row already there? *)
Definition violates_unique (row : UserModel) (db : Session) : bool :=
  existsb (fun u =>
             (username u =? username row)%string
             || (email u =? email row)%string
             || (secret_key u =? secret_key row)%string
             || (client_id u =? client_id row)%string) db.

(** SQLite's choice for an INTEGER PRIMARY KEY left unset: one more than
    the largest key in use. *)
Definition next_rowid (db : Session) : Z :=
  1 + fold_right (fun u m => Z.max (id u) m) 0 db.

Definition with_id (i : Z) (u : UserModel) : UserModel :=
  {| id := i; username := username u; email := email u;
     hashed_password := hashed_password u; activated := activated u;
     secret_key := secret_key u; client_id := client_id u |}.

Definition with_activated (b : bool) (u : UserModel) : UserModel :=
  {| id := id u; username := username u; email := email u;
     hashed_password := hashed_password u; activated := b;
     secret_key := secret_key u; client_id := client_id u |}.

(** [db.add(user); db.commit(); db.refresh(user)]: the INSERT either
    violates a UNIQUE constraint, and the commit raises with the table as it
    was, or appends the row under a fresh key. *)
Definition db_add_commit_refresh (user : UserModel) (db : Session)
  : result UserModel * Session :=
  if violates_unique user db then (Raise IntegrityError, db)
  else let row := with_id (next_rowid db) user in (Return row, db ++ [row]).

(** [user.activated = True; db.commit(); db.refresh(user)]: an UPDATE of the
    row that has the primary key of [user]. *)
Definition db_set_activated_commit (user : UserModel) (db : Session) : Session :=
  List.map (fun u => if id u =? id user then with_activated true u else u) db.

(** The invariant the table's constraints maintain: the primary key and
    the four [unique=True] columns never repeat. *)
Definition wf_db (db : Session) : Prop :=
  NoDup (List.map id db)
  /\ NoDup (List.map username db)
  /\ NoDup (List.map email db)
  /\ NoDup (List.map secret_key db)
  /\ NoDup (List.map client_id db).

(* ===================================================================== *)
(** * The service: [src/authAPI/main.py] *)
(* ===================================================================== *)

Definition ALGORITHM : string := "HS256".
Definition ACCESS_TOKEN_EXPIRE_MINUTES : Z := 30.

(** Request and response models. *)
Record Token : Type := { access_token : jwt.token; token_type : string }.

Record RegisterUserRequest : Type := {
  request_username : string;
  request_email : string;
  request_password : string
}.

Record RegistrationResponseModel : Type := {
  response_username : string;
  response_email : string;
  response_secret_key : string;
  response_client_id : string
}.

Record GeneralResponseModel : Type := {
  isSuccessful : bool;
  message : string;
  data : list jwt.token
}.

Record OAuth2PasswordRequestForm : Type := {
  form_username : string;
  form_password : string
}.

(** The exception both token-checking functions build before their [try]. *)
Definition credentials_exception : exn :=
  HTTPException 401 "Could not validate credentials" [("WWW-Authenticate", "Bearer")].

Section Service.
Context {algorithms_registry : jwt.Algorithms} {pwd_context : CryptContext}.

(** [pwd_context.verify(plain_password, hashed_password)]: the context
    first identifies the hash, then refuses a password it will not take,
    then compares. *)
Definition verify_password (plain_password hashed : string) : result bool :=
  if negb (context_identify hashed) then Raise UnknownHashError
  else if secret_refused plain_password then Raise PasswordValueError
  else Return (context_verify plain_password hashed).

(** [pwd_context.hash(password)]: refuses a password it will not take;
    otherwise draws its salt from the system's random source. *)
Definition get_password_hash (password : string) (tape : entropy)
  : result (string * entropy) :=
  if secret_refused password then Raise PasswordValueError
  else let (salt, tape') := token_bytes 16 tape in
       Return (context_hash password salt, tape').

(** [db.query(UserModel).filter(UserModel.username == username).first()].
    The annotation says [str]; the callers pass what they have.  A string is
    bound as it is, a number or boolean is compared as its text, and what
    the driver cannot take makes the query raise. *)
Definition get_user (db : Session) (name : value) : result (option UserModel) :=
  match name with
  | PyStr s => Return (select_by_username db s)
  | PyScalar text => Return (select_by_username db text)
  | PyBigInt => Raise OverflowError
  | PyContainer => Raise DBAPIError
  end.

(** Returns the user, or [False] (here [None]). *)
Definition authenticate_user (db : Session) (name password : string)
  : result (option UserModel) :=
  user <- get_user db (PyStr name) ;;
  match user with
  | None => Return None
  | Some user =>
      ok <- verify_password password (hashed_password user) ;;
      if negb ok then Return None else Return (Some user)
  end.

(** [if expires_delta:] tests the truth value of the argument: [None] is
    falsy, and so is [timedelta(0)]. *)
Definition create_access_token (data : jwt.payload_dict) (key : string)
    (expires_delta : option timedelta) (now : datetime) : result jwt.token :=
  let to_encode := data in
  expire <-
    match expires_delta with
    | Some delta =>
        if timedelta_bool delta then datetime_add now delta
        else datetime_add now (timedelta_minutes 15)
    | None => datetime_add now (timedelta_minutes 15)
    end ;;
  let to_encode := jwt.update_exp to_encode expire in
  Return (jwt.encode to_encode key ALGORITHM).

Definition get_current_user (token : jwt.token) (db : Session) (now : datetime)
  : result UserModel :=
  try_except_InvalidTokenError
    (unverified_payload <- jwt.decode token "" [] false now ;;
     match jwt.sub unverified_payload with
     | None => Raise credentials_exception
     | Some name =>
         user <- get_user db name ;;
         match user with
         | None => Raise credentials_exception
         | Some user =>
             _ <- jwt.decode token (secret_key user) [ALGORITHM] true now ;;
             Return user
         end
     end)
    (Raise credentials_exception).

Definition get_current_active_user (current_user : UserModel) : result UserModel :=
  if negb (activated current_user)
  then Raise (HTTPException 400 "Inactive user" [])
  else Return current_user.

(** POST /register.  Nothing around the hashing or the commit catches an
    exception. *)
Definition register_user (request : RegisterUserRequest) (tape : entropy)
    (db : Session) : result RegistrationResponseModel * Session :=
  match get_password_hash (request_password request) tape with
  | Raise e => (Raise e, db)
  | Return (hashed, tape1) =>
      let (key, tape2) := generate_random_hex 32 tape1 in
      let (cid, _) := generate_client_id tape2 in
      let user :=
        {| id := 0;
           username := request_username request;
           email := request_email request;
           hashed_password := hashed;
           activated := false;
           secret_key := key;
           client_id := cid |} in
      match db_add_commit_refresh user db with
      | (Raise e, db') => (Raise e, db')
      | (Return user, db') =>
          (Return {| response_username := username user;
                     response_email := email user;
                     response_secret_key := secret_key user;
                     response_client_id := client_id user |}, db')
      end
  end.

(** The dictionary both callers of [create_access_token] pass:
    [{"sub": username}]. *)
Definition sub_only (name : string) : jwt.payload_dict :=
  {| jwt.dict_sub := Some (PyStr name); jwt.dict_exp := None;
     jwt.dict_nbf := None; jwt.dict_iat := None;
     jwt.dict_aud := None; jwt.dict_jti := None |}.

(** POST /token. *)
Definition login_for_access_token (form_data : OAuth2PasswordRequestForm)
    (db : Session) (now : datetime) : result Token :=
  user <- authenticate_user db (form_username form_data) (form_password form_data) ;;
  match user with
  | None =>
      Raise (HTTPException 401 "Incorrect username or password"
                           [("WWW-Authenticate", "Bearer")])
  | Some user =>
      let access_token_expires := timedelta_minutes ACCESS_TOKEN_EXPIRE_MINUTES in
      token <- create_access_token (sub_only (username user)) (secret_key user)
                                   (Some access_token_expires) now ;;
      Return {| access_token := token; token_type := "bearer" |}
  end.

(** GET /retrieve-access-token, given the user its dependency resolved.
    [user.secret_key] on a missing row would be an attribute error on
    [None]. *)
Definition retrieve_access_token (current_user : UserModel) (db : Session)
    (now : datetime) : result GeneralResponseModel :=
  user <- get_user db (PyStr (username current_user)) ;;
  match user with
  | None => Raise AttributeError
  | Some user =>
      token <- create_access_token (sub_only (username current_user))
                                   (secret_key user) None now ;;
      Return {| isSuccessful := true;
                message := "Token retrieved successfully";
                data := [token] |}
  end.


(** POST /account-activation. *)
Definition account_activation (token : jwt.token) (db : Session) (now : datetime)
  : result GeneralResponseModel * Session :=
  let checked :=
    try_except_InvalidTokenError
      (unverified_payload <- jwt.decode token "" [] false now ;;
       match jwt.sub unverified_payload with
       | None => Raise credentials_exception
       | Some name =>
           user <- get_user db name ;;
           match user with
           | None => Raise credentials_exception
           | Some user =>
               _ <- jwt.decode token (secret_key user) [ALGORITHM] true now ;;
               Return user
           end
       end)
      (Raise credentials_exception) in
  match checked with
  | Raise e => (Raise e, db)
  | Return user =>
      let db' := db_set_activated_commit user db in
      (Return {| isSuccessful := true;
                 message := "Account activated successfully";
                 data := [] |}, db')
  end.

(** GET /users/me/, after its dependencies. *)
Definition read_users_me (current_user : UserModel) : result UserModel :=
  Return current_user.

End Service.

(* ===================================================================== *)
(** * A transparent instance of the two primitives *)
(* ===================================================================== *)

(** The examples below run the service on concrete inputs, which needs the
    two primitives to compute.  These stand-ins keep the interface and
    nothing of the strength of HMAC-SHA-256 and bcrypt: the tag spells out
    the algorithm, the key and the message; the password hash is the salt in
    hexadecimal followed by the password. *)
Module Toy.

Definition show_Z (z : Z) : string := DecimalString.NilZero.string_of_int (Z.to_int z).

Definition show_time (t : option jwt.time_value) : string :=
  match t with
  | Some (jwt.int_of e) => show_Z e
  | Some jwt.int_ValueError => "?"
  | Some jwt.int_TypeError => "null"
  | Some jwt.int_OverflowError => "Infinity"
  | None => "-"
  end.

Definition show_value (v : option value) : string :=
  match v with
  | Some (PyStr s) => s
  | Some (PyScalar text) => ("#" ++ text)%string
  | Some PyBigInt => "#big"
  | Some PyContainer => "[]"
  | None => "-"
  end.

Definition show_aud (a : option jwt.aud_claim) : string :=
  match a with
  | Some (jwt.aud_one s) => s
  | Some (jwt.aud_many l) => ("[" ++ String.concat ";" l ++ "]")%string
  | None => "-"
  end.

Definition show_claims (c : jwt.claims) : string :=
  (show_value (jwt.sub c) ++ "," ++ show_time (jwt.exp c)
   ++ "," ++ show_time (jwt.nbf c) ++ "," ++ show_time (jwt.iat c)
   ++ "," ++ show_aud (jwt.aud c) ++ "," ++ show_value (jwt.jti c))%string.

Definition algorithms : jwt.Algorithms :=
  fun alg key msg =>
    (alg ++ ":" ++ key ++ ":" ++ jwt.typ (fst msg) ++ "," ++ show_claims (snd msg))%string.

Definition pwd_context : CryptContext :=
  {| context_hash := fun password salt => (hexlify salt ++ "$" ++ password)%string;
     context_identify := fun hashed => (32 <? String.length hashed)%nat;
     context_verify := fun password hashed =>
       (substring 33 (String.length hashed - 33) hashed =? password)%string |}.

(** Two tapes of random bytes. *)
Definition tape_a : entropy := fun i => match Byte.of_nat (i mod 256) with Some b => b | None => x00 end.
Definition tape_b : entropy := fun i => match Byte.of_nat ((7 * i + 171) mod 256) with Some b => b | None => x00 end.

End Toy.

(* ===================================================================== *)
(** * Vocabulary of the statements *)
(* ===================================================================== *)

(** The two formats registration hands out. *)
Definition secret_key_format (s : string) : Prop :=
  String.length s = 64%nat /\ string_forallb is_lower_hex s = true.

Definition client_id_format (s : string) : Prop :=
  String.length s = 14%nat /\ string_forallb is_upper_hex s = true.

(** What [register_user] draws from a tape: the salt goes first, then the
    secret key, then the client id. *)
Definition drawn_secret_key (tape : entropy) : string :=
  fst (generate_random_hex 32 (snd (token_bytes 16 tape))).

Definition drawn_client_id (tape : entropy) : string :=
  fst (generate_client_id (snd (generate_random_hex 32 (snd (token_bytes 16 tape))))).

(** A claim set that carries nothing but a subject and an expiry. *)
Definition sub_and_exp (name : value) (expiry : option Z) : jwt.claims :=
  {| jwt.sub := Some name; jwt.exp := option_map jwt.int_of expiry; jwt.nbf := None;
     jwt.iat := None; jwt.aud := None; jwt.jti := None |}.

Section Vocabulary.
Context {algorithms_registry : jwt.Algorithms} {pwd_context : CryptContext}.

(** The object [register_user] hands to the session, when the password was
    one the context hashes. *)
Definition pending_user (request : RegisterUserRequest) (tape : entropy) : UserModel :=
  {| id := 0;
     username := request_username request;
     email := request_email request;
     hashed_password :=
       context_hash (request_password request) (fst (token_bytes 16 tape));
     activated := false;
     secret_key := drawn_secret_key tape;
     client_id := drawn_client_id tape |}.

Definition registration_response (request : RegisterUserRequest) (tape : entropy)
  : RegistrationResponseModel :=
  {| response_username := request_username request;
     response_email := request_email request;
     response_secret_key := drawn_secret_key tape;
     response_client_id := drawn_client_id tape |}.

(** The tag of [j] is the HS256 tag of its first two segments under [key],
    and its header says HS256. *)
Definition signed_by (key : string) (j : jwt.jws) : bool :=
  (jwt.alg (jwt.protected j) =? ALGORITHM)%string
  && (jwt.hmac_sign ALGORITHM key (jwt.protected j, jwt.payload j)
      =? jwt.signature j)%string.

(** The claim set carries an [exp] that the clock has reached. *)
Definition expired (c : jwt.claims) (now : datetime) : bool :=
  match jwt.exp c with
  | Some (jwt.int_of e) => e * microseconds_per_second <=? now
  | _ => false
  end.

(** A time claim that is still ahead of the clock. *)
Definition ahead (t : option jwt.time_value) (now : datetime) : bool :=
  match t with
  | Some (jwt.int_of s) => now <? s * microseconds_per_second
  | _ => false
  end.

(** A time claim that is an integer for [int()], when it is there. *)
Definition integer_or_absent (t : option jwt.time_value) : bool :=
  match t with
  | None | Some (jwt.int_of _) => true
  | Some _ => false
  end.

Definition names_audience (c : jwt.claims) : bool :=
  match jwt.aud c with
  | None | Some (jwt.aud_one EmptyString) | Some (jwt.aud_many []) => false
  | Some _ => true
  end.

Definition string_or_absent (v : option value) : bool :=
  match v with
  | None | Some (PyStr _) => true
  | Some _ => false
  end.

(** The claims pass the library's validation. *)
Definition claims_valid (c : jwt.claims) (now : datetime) : bool :=
  integer_or_absent (jwt.iat c) && negb (ahead (jwt.iat c) now)
  && integer_or_absent (jwt.nbf c) && negb (ahead (jwt.nbf c) now)
  && integer_or_absent (jwt.exp c) && negb (expired c now)
  && negb (names_audience c)
  && string_or_absent (jwt.sub c)
  && string_or_absent (jwt.jti c).

(** The verified parse of step 3 goes through. *)
Definition verified_parse (key : string) (j : jwt.jws) (now : datetime) : bool :=
  signed_by key j && claims_valid (jwt.payload j) now.

(** An exception that is no [InvalidTokenError]: the [except] clause of the
    two token checks lets it through. *)
Definition escapes (e : exn) : bool :=
  match e with
  | InvalidTokenError _ => false
  | _ => true
  end.

(** What the verified parse raises past the [except] clause, if anything:
    under a tag that verifies, validation meets a time claim on which
    [int()] raises something other than a [ValueError], before any claim
    has refused the token. *)
Definition verified_parse_escape (key : string) (j : jwt.jws) (now : datetime)
  : option exn :=
  if signed_by key j then
    match jwt.validate_claims (jwt.payload j) now with
    | Raise e => if escapes e then Some e else None
    | Return _ => None
    end
  else None.

(** A claim the database driver can take as the parameter of the lookup. *)
Definition bindable (v : option value) : bool :=
  match v with
  | Some PyBigInt | Some PyContainer => false
  | _ => true
  end.

(** A time claim on which [int()] returns or raises a [ValueError]. *)
Definition int_readable (t : option jwt.time_value) : bool :=
  match t with
  | Some jwt.int_TypeError | Some jwt.int_OverflowError => false
  | _ => true
  end.

(** The tokens on which nothing but a token error can be raised: those
    that do not parse at all, and those that parse into claims of the JSON
    types the two checks are written for. *)
Definition well_typed (t : jwt.token) : bool :=
  match t with
  | jwt.compact j =>
      bindable (jwt.sub (jwt.payload j))
      && int_readable (jwt.iat (jwt.payload j))
      && int_readable (jwt.nbf (jwt.payload j))
      && int_readable (jwt.exp (jwt.payload j))
  | jwt.unparseable _ => true
  | jwt.too_deep _ => false
  end.

(** The exceptions of the collaborators that the two checks let through. *)
Definition server_error (e : exn) : Prop :=
  e = DBAPIError \/ e = OverflowError \/ e = TypeError \/ e = RecursionError.

(** The [exp] claim a token carries. *)
Definition issued_exp (t : jwt.token) : option jwt.time_value :=
  match t with
  | jwt.compact j => jwt.exp (jwt.payload j)
  | _ => None
  end.

(** The [sub] claim a token carries. *)
Definition token_sub (t : jwt.token) : option value :=
  match t with
  | jwt.compact j => jwt.sub (jwt.payload j)
  | _ => None
  end.

End Vocabulary.


(* ===================================================================== *)
(** * Concrete data for the examples *)
(* ===================================================================== *)

Definition alice_request : RegisterUserRequest :=
  {| request_username := "alice"; request_email := "alice@x.com";
     request_password := "pw123" |}.

Definition bob_request : RegisterUserRequest :=
  {| request_username := "bob"; request_email := "bob@x.com";
     request_password := "hunter2" |}.

Definition alice : UserModel :=
  {| id := 1; username := "alice"; email := "alice@x.com";
     hashed_password := "000102030405060708090a0b0c0d0e0f$pw123";
     activated := false;
     secret_key := "101112131415161718191a1b1c1d1e1f202122232425262728292a2b2c2d2e2f";
     client_id := "30313233343536" |}.

Definition bob : UserModel :=
  {| id := 2; username := "bob"; email := "bob@x.com";
     hashed_password := "abb2b9c0c7ced5dce3eaf1f8ff060d14$hunter2";
     activated := false;
     secret_key := "1b222930373e454c535a61686f767d848b9299a0a7aeb5bcc3cad1d8dfe6edf4";
     client_id := "FB020910171E25" |}.

(** A clock reading a quarter of a second past a whole second. *)
Definition noon : datetime := 1700000000250000.

(** Alice's login form, and the token a login at [noon] returns her. *)
Definition alice_login : OAuth2PasswordRequestForm :=
  {| form_username := "alice"; form_password := "pw123" |}.

Definition alice_token : Token :=
  {| access_token :=
       @jwt.encode Toy.algorithms
         (jwt.update_exp (sub_only "alice") (noon + timedelta_minutes 30))
         (secret_key alice) ALGORITHM;
     token_type := "bearer" |}.

(** A password the hashing context refuses: it holds a NUL. *)
Definition nul_password : string := String "p" (String "w" (String Ascii.zero "123")).

(** A token that parses, whose [sub] is a JSON array. *)
Definition array_sub_token (expiry : option Z) : jwt.token :=
  jwt.compact
    {| jwt.protected := {| jwt.alg := "HS256"; jwt.typ := "JWT" |};
       jwt.payload := sub_and_exp PyContainer expiry;
       jwt.signature := "" |}.

(** A token alice can make with the secret key her registration returned:
    it names her, its [exp] is long past, its [nbf] is JSON [null], and its
    tag is the right one. *)
Definition null_nbf_claims : jwt.claims :=
  {| jwt.sub := Some (PyStr "alice"); jwt.exp := Some (jwt.int_of 1);
     jwt.nbf := Some jwt.int_TypeError; jwt.iat := None;
     jwt.aud := None; jwt.jti := None |}.

Definition null_nbf_token : jwt.token :=
  jwt.compact
    {| jwt.protected := {| jwt.alg := "HS256"; jwt.typ := "JWT" |};
       jwt.payload := null_nbf_claims;
       jwt.signature :=
         @jwt.hmac_sign Toy.algorithms ALGORITHM (secret_key alice)
           ({| jwt.alg := "HS256"; jwt.typ := "JWT" |}, null_nbf_claims) |}.

(** Closes [wf_db] on a table written out row by row. *)
Ltac solve_wf :=
  unfold wf_db; cbn [List.map id username email secret_key client_id alice bob];
  repeat split;
  repeat (constructor; [cbn [In]; intuition discriminate |]);
  constructor.

(* ===================================================================== *)
(** * Whole routes and the life of the table *)
(* ===================================================================== *)

(** [class User(BaseModel)], the response model of GET /users/me/: the
    fields FastAPI reads off the row it is given; a row has no [full_name],
    so that field takes its default. *)
Record User : Type := {
  user_username : string;
  user_email : option string;
  user_full_name : option string;
  user_activated : option bool
}.

Definition response_model_User (u : UserModel) : User :=
  {| user_username := username u;
     user_email := Some (email u);
     user_full_name := None;
     user_activated := Some (activated u) |}.

Section Routes.
Context {algorithms_registry : jwt.Algorithms} {pwd_context : CryptContext}.

(** GET /users/me/ as a whole: the two dependencies, the body, the response
    model. *)
Definition read_users_me_route (token : jwt.token) (db : Session) (now : datetime)
  : result User :=
  current_user <- get_current_user token db now ;;
  current_user <- get_current_active_user current_user ;;
  current_user <- read_users_me current_user ;;
  Return (response_model_User current_user).

(** The two endpoints that write to the table, run on any input; the other
    endpoints only read it. *)
Inductive service_step : Session -> Session -> Prop :=
| step_register (request : RegisterUserRequest) (tape : entropy) (db : Session) :
    service_step db (snd (register_user request tape db))
| step_activate (token : jwt.token) (now : datetime) (db : Session) :
    service_step db (snd (account_activation token db now)).

(** Any number of such requests, one after the other. *)
Inductive service_steps : Session -> Session -> Prop :=
| steps_none (db : Session) : service_steps db db
| steps_more (db db' db'' : Session) :
    service_steps db db' -> service_step db' db'' -> service_steps db db''.

(** The tables the service can be in, starting from the empty one. *)
Definition reachable (db : Session) : Prop := service_steps [] db.

(** Two rows are the same account: everything but [activated] agrees, and
    an activated account stays activated. *)
Definition same_account (u u' : UserModel) : Prop :=
  id u' = id u
  /\ username u' = username u
  /\ email u' = email u
  /\ hashed_password u' = hashed_password u
  /\ secret_key u' = secret_key u
  /\ client_id u' = client_id u
  /\ (activated u = true -> activated u' = true).

End Routes.

(** [bytes.fromhex], the way back from hexadecimal that Python offers, in
    either case of the letters.  The program never calls it; it serves to
    say that the strings registration hands out lose nothing of the random
    bytes they were made from. *)
Definition unhex_digit (c : ascii) : N :=
  let n := N_of_ascii c in
  if ((48 <=? n) && (n <=? 57))%N then (n - 48)%N
  else if ((97 <=? n) && (n <=? 102))%N then (n - 87)%N
  else if ((65 <=? n) && (n <=? 70))%N then (n - 55)%N
  else 0%N.

Fixpoint unhexlify (s : string) : list byte :=
  match s with
  | String hi (String lo rest) =>
      match Byte.of_N (16 * unhex_digit hi + unhex_digit lo)%N with
      | Some b => b :: unhexlify rest
      | None => []
      end
  | _ => []
  end.

(** The invariant of the tables the service reaches: the constraints hold,
    the primary keys are 1, 2, ... in the order of insertion, and every row
    holds a secret key and a client id of the registered formats. *)
Definition table_invariant (db : Session) : Prop :=
  wf_db db
  /\ List.map id db = List.map Z.of_nat (seq 1 (List.length db))
  /\ forall u, In u db ->
       secret_key_format (secret_key u) /\ client_id_format (client_id u).

(* ===================================================================== *)
(** * Random hexadecimal strings *)
(* ===================================================================== *)

Lemma token_bytes_length (n : nat) (tape : entropy) :
  List.length (fst (token_bytes n tape)) = n.
Proof.
  unfold token_bytes; simpl.
  now rewrite length_map, length_seq.
Qed.

Lemma hexlify_length (bs : list byte) :
  String.length (hexlify bs) = (2 * List.length bs)%nat.
Proof.
  induction bs as [| b rest IH]; simpl.
  - reflexivity.
  - rewrite IH. lia.
Qed.

Lemma hex_digits_of_byte (b : byte) :
  is_lower_hex (hex_digit (Byte.to_N b / 16)%N) = true
  /\ is_lower_hex (hex_digit (Byte.to_N b mod 16)%N) = true.
Proof. destruct b; split; vm_compute; reflexivity. Qed.

Lemma hexlify_lower_hex (bs : list byte) :
  string_forallb is_lower_hex (hexlify bs) = true.
Proof.
  induction bs as [| b rest IH]; simpl.
  - reflexivity.
  - destruct (hex_digits_of_byte b) as [Hhi Hlo].
    now rewrite Hhi, Hlo, IH.
Qed.

Lemma upper_length (s : string) : String.length (upper s) = String.length s.
Proof. induction s as [| c rest IH]; simpl; congruence. Qed.

Lemma ascii_upper_hex (c : ascii) :
  is_lower_hex c = true -> is_upper_hex (ascii_upper c) = true.
Proof.
  destruct c as [[] [] [] [] [] [] [] []]; vm_compute; intro H;
    solve [reflexivity | discriminate H].
Qed.

Lemma upper_hex (s : string) :
  string_forallb is_lower_hex s = true ->
  string_forallb is_upper_hex (upper s) = true.
Proof.
  induction s as [| c rest IH]; simpl; intro H.
  - reflexivity.
  - apply andb_true_iff in H as [Hc Hrest].
    now rewrite (ascii_upper_hex c Hc), (IH Hrest).
Qed.

Lemma token_hex_format (n : nat) (tape : entropy) :
  String.length (fst (token_hex n tape)) = (2 * n)%nat
  /\ string_forallb is_lower_hex (fst (token_hex n tape)) = true.
Proof.
  unfold token_hex.
  pose proof (token_bytes_length n tape) as Hlen.
  destruct (token_bytes n tape) as [bs tape']; simpl in *.
  split.
  - now rewrite hexlify_length, Hlen.
  - apply hexlify_lower_hex.
Qed.

Lemma generate_random_hex_format (tape : entropy) :
  secret_key_format (fst (generate_random_hex 32 tape)).
Proof.
  unfold generate_random_hex, secret_key_format.
  destruct (token_hex_format 32 tape) as [Hlen Hhex].
  now split.
Qed.

Lemma generate_client_id_format (tape : entropy) :
  client_id_format (fst (generate_client_id tape)).
Proof.
  unfold generate_client_id, client_id_format.
  destruct (token_hex_format 7 tape) as [Hlen Hhex].
  destruct (token_hex 7 tape) as [h tape']; simpl in *.
  split.
  - now rewrite upper_length.
  - now apply upper_hex.
Qed.

(* ===================================================================== *)
(** * The users table: lookups, inserts, updates *)
(* ===================================================================== *)

Lemma NoDup_snoc {A : Type} (l : list A) (x : A) :
  NoDup l -> ~ In x l -> NoDup (l ++ [x]).
Proof.
  induction l as [| a l IH]; simpl; intros Hnd Hx.
  - constructor; [intros [] | constructor].
  - inversion Hnd as [| a' l' Ha Hl]; subst.
    constructor.
    + rewrite in_app_iff; simpl. intros [Hin | [Heq | []]].
      * now apply Ha.
      * apply Hx. now left.
    + apply IH; [assumption | intro Hin; apply Hx; now right].
Qed.

Lemma NoDup_map_eq {A B : Type} (f : A -> B) (l : list A) (x y : A) :
  NoDup (List.map f l) -> In x l -> In y l -> f x = f y -> x = y.
Proof.
  induction l as [| a l IH]; simpl; intros Hnd Hx Hy Heq.
  - contradiction.
  - inversion Hnd as [| b l' Ha Hl]; subst.
    destruct Hx as [-> | Hx], Hy as [-> | Hy].
    + reflexivity.
    + exfalso. apply Ha. rewrite Heq. now apply in_map.
    + exfalso. apply Ha. rewrite <- Heq. now apply in_map.
    + now apply IH.
Qed.

Lemma violates_unique_false (row : UserModel) (db : Session) :
  violates_unique row db = false <->
  forall u, In u db ->
    username u <> username row /\ email u <> email row
    /\ secret_key u <> secret_key row /\ client_id u <> client_id row.
Proof.
  unfold violates_unique. split.
  - intros Hfalse u Hin.
    assert (Hu : ((username u =? username row)%string
                  || (email u =? email row)%string
                  || (secret_key u =? secret_key row)%string
                  || (client_id u =? client_id row)%string) = false).
    { destruct (_ || _ || _ || _) eqn:E; [| reflexivity].
      assert (Hex : existsb (fun u =>
                 (username u =? username row)%string
                 || (email u =? email row)%string
                 || (secret_key u =? secret_key row)%string
                 || (client_id u =? client_id row)%string) db = true)
        by (apply existsb_exists; exists u; split; assumption).
      congruence. }
    repeat (apply orb_false_iff in Hu as [Hu ?]).
    repeat split; apply String.eqb_neq; assumption.
  - intros Hall.
    destruct (existsb _ db) eqn:E; [| reflexivity].
    apply existsb_exists in E as (u & Hin & Hu).
    destruct (Hall u Hin) as (H1 & H2 & H3 & H4).
    apply String.eqb_neq in H1, H2, H3, H4.
    now rewrite H1, H2, H3, H4 in Hu.
Qed.

Lemma violates_unique_true (row : UserModel) (db : Session) :
  (exists u, In u db /\ (username u = username row \/ email u = email row)) ->
  violates_unique row db = true.
Proof.
  intros (u & Hin & Hcol).
  apply existsb_exists. exists u. split; [assumption |].
  destruct Hcol as [H | H]; apply String.eqb_eq in H; rewrite H;
    repeat rewrite orb_true_r; reflexivity.
Qed.

Lemma next_rowid_fresh (db : Session) (u : UserModel) :
  In u db -> id u < next_rowid db.
Proof.
  unfold next_rowid. intros Hin.
  enough (id u <= fold_right (fun u m => Z.max (id u) m) 0 db) by lia.
  induction db as [| v db IH]; cbn [fold_right].
  - contradiction.
  - destruct Hin as [-> | Hin]; [lia |].
    specialize (IH Hin). lia.
Qed.

Section TableFacts.
Context {algorithms_registry : jwt.Algorithms} {pwd_context : CryptContext}.

Lemma select_username (db : Session) (name : string) (u : UserModel) :
  select_by_username db name = Some u -> In u db /\ username u = name.
Proof.
  unfold select_by_username. intro H.
  apply find_some in H as [Hin Heq].
  now apply String.eqb_eq in Heq.
Qed.

Lemma select_none (db : Session) (name : string) :
  select_by_username db name = None <-> forall u, In u db -> username u <> name.
Proof.
  unfold select_by_username. split.
  - intros H u Hin. apply String.eqb_neq.
    exact (find_none _ _ H u Hin).
  - intros H. induction db as [| v db IH]; simpl; [reflexivity |].
    destruct (String.eqb_spec (username v) name) as [Heq | Hne].
    + exfalso. apply (H v); [now left | assumption].
    + apply IH. intros u Hin. apply H. now right.
Qed.

(** Under the UNIQUE constraint on [username], a row of the table is the
    one its username finds. *)
Lemma select_of_row (db : Session) (u : UserModel) :
  NoDup (List.map username db) -> In u db -> select_by_username db (username u) = Some u.
Proof.
  unfold select_by_username.
  induction db as [| v db IH]; simpl; intros Hnd Hin.
  - contradiction.
  - inversion Hnd as [| a l Hv Hl]; subst.
    destruct Hin as [-> | Hin].
    + now rewrite String.eqb_refl.
    + destruct (String.eqb_spec (username v) (username u)) as [Heq | Hne].
      * exfalso. apply Hv. rewrite Heq. now apply in_map.
      * now apply IH.
Qed.

Lemma select_snoc_fresh (db : Session) (row : UserModel) :
  (forall u, In u db -> username u <> username row) ->
  select_by_username (db ++ [row]) (username row) = Some row.
Proof.
  unfold select_by_username. intros Hfresh.
  induction db as [| v db IH]; simpl.
  - now rewrite String.eqb_refl.
  - destruct (String.eqb_spec (username v) (username row)) as [Heq | Hne].
    + exfalso. apply (Hfresh v); [now left | assumption].
    + apply IH. intros u Hin. apply Hfresh. now right.
Qed.

(** The UPDATE touches [activated] only, so lookups by username find the
    same row, updated when its key is the one named. *)
Lemma select_after_activation (db : Session) (user : UserModel) (name : string) :
  select_by_username (db_set_activated_commit user db) name =
  option_map (fun u => if id u =? id user then with_activated true u else u)
             (select_by_username db name).
Proof.
  unfold select_by_username, db_set_activated_commit.
  induction db as [| v db IH]; simpl; [reflexivity |].
  assert (Hname : username (if id v =? id user then with_activated true v else v)
                  = username v) by (destruct (id v =? id user); reflexivity).
  rewrite Hname.
  destruct (username v =? name)%string; [reflexivity | exact IH].
Qed.

Lemma db_add_commit_refresh_wf (user : UserModel) (db : Session) :
  wf_db db -> wf_db (snd (db_add_commit_refresh user db)).
Proof.
  unfold db_add_commit_refresh. intros Hwf.
  destruct (violates_unique user db) eqn:E; simpl; [assumption |].
  destruct Hwf as (Hid & Hname & Hmail & Hkey & Hcid).
  pose proof (proj1 (violates_unique_false user db) E) as Hfresh.
  unfold wf_db. repeat rewrite map_app. simpl.
  repeat split; apply NoDup_snoc; try assumption;
    intro Hin; apply in_map_iff in Hin as (u & Heq & Hu); simpl in Heq;
    destruct (Hfresh u Hu) as (H1 & H2 & H3 & H4);
    pose proof (next_rowid_fresh db u Hu); solve [lia | contradiction].
Qed.

Lemma wf_db_nil : wf_db [].
Proof. unfold wf_db; simpl; repeat split; constructor. Qed.

Lemma db_set_activated_commit_wf (user : UserModel) (db : Session) :
  wf_db db -> wf_db (db_set_activated_commit user db).
Proof.
  unfold wf_db, db_set_activated_commit.
  repeat rewrite map_map.
  assert (E : forall (A : Type) (f : UserModel -> A),
             (forall u b, f (with_activated b u) = f u) ->
             List.map (fun u => f (if id u =? id user then with_activated true u else u)) db
             = List.map f db).
  { intros A f Hf. apply map_ext. intro u.
    destruct (id u =? id user); [apply Hf | reflexivity]. }
  rewrite (E _ id), (E _ username), (E _ email), (E _ secret_key), (E _ client_id);
    trivial.
Qed.

End TableFacts.


(* ===================================================================== *)
(** * Decoding tokens *)
(* ===================================================================== *)

Section TokenFacts.
Context {algorithms_registry : jwt.Algorithms}.

Lemma escapes_cases (e : exn) :
  (exists k, e = InvalidTokenError k) \/ escapes e = true.
Proof. destruct e; simpl; eauto. Qed.

Lemma decode_unparseable (raw key : string) (algs : list string) (v : bool)
    (now : datetime) :
  jwt.decode (jwt.unparseable raw) key algs v now
  = Raise (InvalidTokenError DecodeError).
Proof. reflexivity. Qed.

Lemma decode_too_deep (raw key : string) (algs : list string) (v : bool)
    (now : datetime) :
  jwt.decode (jwt.too_deep raw) key algs v now = Raise RecursionError.
Proof. reflexivity. Qed.

(** Without verification the claim set comes back whatever the tag, the
    header and the claims are. *)
Lemma decode_unverified (j : jwt.jws) (key : string) (algs : list string)
    (now : datetime) :
  jwt.decode (jwt.compact j) key algs false now = Return (jwt.payload j).
Proof. reflexivity. Qed.

(** Validation returns exactly on the claims that pass; what it raises is a
    token error, or what [int()] raised on a time claim. *)
Lemma validate_claims_cases (c : jwt.claims) (now : datetime) :
  match jwt.validate_claims c now with
  | Return _ => claims_valid c now = true
  | Raise e =>
      claims_valid c now = false
      /\ ((exists k, e = InvalidTokenError k)
          \/ ((e = TypeError \/ e = OverflowError)
              /\ int_readable (jwt.iat c) && int_readable (jwt.nbf c)
                 && int_readable (jwt.exp c) = false))
  end.
Proof.
  unfold claims_valid, jwt.validate_claims, jwt.validate_not_before,
    jwt.validate_exp, jwt.validate_aud, jwt.validate_string, jwt.int_claim,
    ahead, expired, names_audience, string_or_absent, integer_or_absent,
    int_readable.
  destruct (jwt.iat c) as [[i | | |] |]; cbn [bind andb negb];
    [destruct (now <? i * _); cbn [bind andb negb] | | | |];
    try (split; [reflexivity | eauto]; fail);
    (destruct (jwt.nbf c) as [[n | | |] |]; cbn [bind andb negb];
       [destruct (now <? n * _); cbn [bind andb negb] | | | |];
       try (split; [reflexivity | eauto]; fail);
       (destruct (jwt.exp c) as [[e | | |] |]; cbn [bind andb negb];
          [destruct (e * _ <=? now); cbn [bind andb negb] | | | |];
          try (split; [reflexivity | eauto]; fail);
          (destruct (jwt.aud c) as [[[| ? ?] | [| ? ?]] |]; cbn [bind andb negb];
             try (split; [reflexivity | eauto]; fail);
             (destruct (jwt.sub c) as [[? | ? | |] |]; cbn [bind andb negb];
                try (split; [reflexivity | eauto]; fail);
                (destruct (jwt.jti c) as [[? | ? | |] |]; cbn [bind andb negb];
                   try reflexivity;
                   try (split; [reflexivity | eauto]; fail)))))).
Qed.

Lemma validate_claims_valid (c : jwt.claims) (now : datetime) :
  claims_valid c now = true -> jwt.validate_claims c now = Return tt.
Proof.
  intros Hval. pose proof (validate_claims_cases c now) as H.
  destruct (jwt.validate_claims c now) as [[] | e]; [reflexivity |].
  destruct H as [H _]. congruence.
Qed.

(** A verified parse returns the claim set, raises a token error, or lets
    through what validation could not catch. *)
Lemma decode_verified (j : jwt.jws) (key : string) (now : datetime) :
  if verified_parse key j now
  then jwt.decode (jwt.compact j) key [ALGORITHM] true now = Return (jwt.payload j)
  else match verified_parse_escape key j now with
       | Some e => jwt.decode (jwt.compact j) key [ALGORITHM] true now = Raise e
       | None => exists k, jwt.decode (jwt.compact j) key [ALGORITHM] true now
                           = Raise (InvalidTokenError k)
       end.
Proof.
  unfold verified_parse, verified_parse_escape, signed_by.
  unfold jwt.decode, jwt.load, jwt.verify_signature. simpl.
  rewrite orb_false_r.
  destruct (String.eqb_spec (jwt.alg (jwt.protected j)) ALGORITHM) as [Halg | Halg];
    simpl; [| eauto].
  rewrite Halg.
  destruct (_ =? jwt.signature j)%string; simpl; [| eauto].
  pose proof (validate_claims_cases (jwt.payload j) now) as Hval.
  destruct (jwt.validate_claims (jwt.payload j) now) as [[] | e].
  - now rewrite Hval.
  - destruct Hval as [-> _]. simpl.
    destruct (escapes_cases e) as [[k ->] | Hesc]; [simpl; eauto |].
    now rewrite Hesc.
Qed.

(** What escapes a verified parse: the tag verified, and some time claim is
    one [int()] raises a [TypeError] or an [OverflowError] on. *)
Lemma verified_parse_escape_some (key : string) (j : jwt.jws) (now : datetime)
    (e : exn) :
  verified_parse_escape key j now = Some e ->
  signed_by key j = true
  /\ (e = TypeError \/ e = OverflowError)
  /\ int_readable (jwt.iat (jwt.payload j))
     && int_readable (jwt.nbf (jwt.payload j))
     && int_readable (jwt.exp (jwt.payload j)) = false.
Proof.
  unfold verified_parse_escape.
  destruct (signed_by key j); [| discriminate].
  pose proof (validate_claims_cases (jwt.payload j) now) as Hval.
  destruct (jwt.validate_claims (jwt.payload j) now) as [[] | e']; [discriminate |].
  destruct Hval as [_ [[k ->] | [He Hread]]]; [discriminate |].
  destruct He as [-> | ->]; simpl; intros [= <-]; auto.
Qed.

(** Time claims that [int()] can take let nothing escape. *)
Lemma verified_parse_escape_readable (key : string) (j : jwt.jws) (now : datetime) :
  int_readable (jwt.iat (jwt.payload j))
  && int_readable (jwt.nbf (jwt.payload j))
  && int_readable (jwt.exp (jwt.payload j)) = true ->
  verified_parse_escape key j now = None.
Proof.
  intros Hread.
  destruct (verified_parse_escape key j now) as [e |] eqn:He; [| reflexivity].
  apply verified_parse_escape_some in He as (_ & _ & H). congruence.
Qed.

(** Neither does a token whose tag does not verify: the tag is checked
    before any claim is looked at. *)
Lemma verified_parse_escape_unsigned (key : string) (j : jwt.jws) (now : datetime) :
  signed_by key j = false -> verified_parse_escape key j now = None.
Proof. unfold verified_parse_escape. now intros ->. Qed.

(** Whatever a decode raises is a token error or escapes the handler, and
    what escapes is one of three exceptions. *)
Lemma decode_raises (t : jwt.token) (key : string) (now : datetime) (v : bool)
    (e : exn) :
  jwt.decode t key [ALGORITHM] v now = Raise e ->
  (exists k, e = InvalidTokenError k)
  \/ (escapes e = true
      /\ (e = TypeError \/ e = OverflowError \/ e = RecursionError)).
Proof.
  destruct t as [j | raw | raw].
  - destruct v; [| discriminate].
    pose proof (decode_verified j key now) as Hdec.
    destruct (verified_parse key j now); [congruence |].
    destruct (verified_parse_escape key j now) as [e' |] eqn:Hesc.
    + rewrite Hdec. intros [= <-].
      apply verified_parse_escape_some in Hesc as (_ & [-> | ->] & _);
        right; split; auto.
    + destruct Hdec as [k ->]. intros [= <-]. eauto.
  - rewrite decode_unparseable. intros [= <-]. eauto.
  - rewrite decode_too_deep. intros [= <-]. right. split; auto.
Qed.

(** Claims that pass have an expiry still ahead, no time claim in the
    future, every time claim an integer, no audience, and a subject that is
    a string. *)
Lemma claims_valid_true (c : jwt.claims) (now : datetime) :
  claims_valid c now = true ->
  (forall e, jwt.exp c = Some (jwt.int_of e) -> now < e * microseconds_per_second)
  /\ (forall s, jwt.nbf c = Some (jwt.int_of s) -> s * microseconds_per_second <= now)
  /\ (forall s, jwt.iat c = Some (jwt.int_of s) -> s * microseconds_per_second <= now)
  /\ integer_or_absent (jwt.exp c) = true
  /\ integer_or_absent (jwt.nbf c) = true
  /\ integer_or_absent (jwt.iat c) = true
  /\ names_audience c = false
  /\ string_or_absent (jwt.sub c) = true
  /\ string_or_absent (jwt.jti c) = true.
Proof.
  unfold claims_valid, expired, ahead. intros H.
  repeat (apply andb_true_iff in H as [H ?]).
  repeat match goal with K : negb _ = true |- _ => apply negb_true_iff in K end.
  repeat split; trivial.
  - intros e He. rewrite He in *. now apply Z.leb_gt.
  - intros s Hs. rewrite Hs in *. now apply Z.ltb_ge.
  - intros s Hs. rewrite Hs in *. now apply Z.ltb_ge.
Qed.


(** A claim set of a string subject and an expiry passes exactly until the
    expiry. *)
Lemma sub_and_exp_valid (name : string) (expiry : option Z) (now : datetime) :
  claims_valid (sub_and_exp (PyStr name) expiry) now
  = negb (expired (sub_and_exp (PyStr name) expiry) now).
Proof.
  unfold claims_valid. destruct expiry; simpl; now rewrite ?andb_true_r.
Qed.

(** Why a verified parse fails: the header names another algorithm, the tag
    does not match, or the claims do not pass. *)
Lemma verified_parse_false (key : string) (j : jwt.jws) (now : datetime) :
  verified_parse key j now = false <->
  jwt.alg (jwt.protected j) <> ALGORITHM
  \/ jwt.hmac_sign ALGORITHM key (jwt.protected j, jwt.payload j) <> jwt.signature j
  \/ claims_valid (jwt.payload j) now = false.
Proof.
  unfold verified_parse, signed_by.
  destruct (String.eqb_spec (jwt.alg (jwt.protected j)) ALGORITHM) as [Halg | Halg];
    destruct (String.eqb_spec
                (jwt.hmac_sign ALGORITHM key (jwt.protected j, jwt.payload j))
                (jwt.signature j)) as [Hsig | Hsig];
    simpl; try (split; [intros _; tauto | reflexivity]).
  split; [tauto |]. intros [H | [H | H]]; [contradiction | contradiction | assumption].
Qed.

Lemma verified_parse_true (key : string) (j : jwt.jws) (now : datetime) :
  verified_parse key j now = true <->
  jwt.alg (jwt.protected j) = ALGORITHM
  /\ jwt.hmac_sign ALGORITHM key (jwt.protected j, jwt.payload j) = jwt.signature j
  /\ claims_valid (jwt.payload j) now = true.
Proof.
  unfold verified_parse, signed_by.
  rewrite !andb_true_iff, !String.eqb_eq. tauto.
Qed.

Lemma signed_by_false (key : string) (j : jwt.jws) :
  jwt.alg (jwt.protected j) <> ALGORITHM
  \/ jwt.hmac_sign ALGORITHM key (jwt.protected j, jwt.payload j) <> jwt.signature j ->
  signed_by key j = false.
Proof.
  unfold signed_by. intros [H | H].
  - apply String.eqb_neq in H. now rewrite H.
  - apply String.eqb_neq in H. rewrite H. apply andb_false_r.
Qed.

End TokenFacts.

(* ===================================================================== *)
(** * Token verification: [get_current_user] and [account_activation] *)
(* ===================================================================== *)

Section VerificationFacts.
Context {algorithms_registry : jwt.Algorithms} {pwd_context : CryptContext}.

(** The function, with its [try] and its two decodes evaluated. *)
Lemma get_current_user_cases (token : jwt.token) (db : Session) (now : datetime) :
  get_current_user token db now =
  match token with
  | jwt.unparseable _ => Raise credentials_exception
  | jwt.too_deep _ => Raise RecursionError
  | jwt.compact j =>
      match jwt.sub (jwt.payload j) with
      | None => Raise credentials_exception
      | Some name =>
          match get_user db name with
          | Raise e => Raise e
          | Return None => Raise credentials_exception
          | Return (Some user) =>
              if verified_parse (secret_key user) j now then Return user
              else match verified_parse_escape (secret_key user) j now with
                   | Some e => Raise e
                   | None => Raise credentials_exception
                   end
          end
      end
  end.
Proof.
  assert (Hfound : forall j user,
            try_except_InvalidTokenError
              (_ <- jwt.decode (jwt.compact j) (secret_key user) [ALGORITHM] true now ;;
               Return user)
              (Raise credentials_exception)
            = if verified_parse (secret_key user) j now then Return user
              else match verified_parse_escape (secret_key user) j now with
                   | Some e => Raise e
                   | None => Raise credentials_exception
                   end).
  { intros j user.
    pose proof (decode_verified j (secret_key user) now) as Hdec.
    destruct (verified_parse (secret_key user) j now); [now rewrite Hdec |].
    destruct (verified_parse_escape (secret_key user) j now) as [e |] eqn:Hesc.
    - rewrite Hdec.
      now apply verified_parse_escape_some in Hesc as (_ & [-> | ->] & _).
    - now destruct Hdec as [k ->]. }
  unfold get_current_user.
  destruct token as [j | raw | raw]; [| reflexivity | reflexivity].
  rewrite decode_unverified. cbn [bind].
  destruct (jwt.sub (jwt.payload j)) as [name |]; [| reflexivity].
  destruct name as [s | text | |]; cbn [get_user bind]; [| | reflexivity | reflexivity].
  - destruct (select_by_username db s) as [user |]; [apply Hfound | reflexivity].
  - destruct (select_by_username db text) as [user |]; [apply Hfound | reflexivity].
Qed.


(** A failure of the check is the 401 exception, or an exception of a
    collaborator on a token that is not typed the way the check expects. *)
Lemma get_current_user_failure (token : jwt.token) (db : Session)
    (now : datetime) (e : exn) :
  get_current_user token db now = Raise e ->
  e = credentials_exception
  \/ (well_typed token = false /\ server_error e).
Proof.
  rewrite get_current_user_cases. unfold server_error.
  assert (Hfound : forall j user,
            (if verified_parse (secret_key user) j now then Return user
             else match verified_parse_escape (secret_key user) j now with
                  | Some e => Raise e
                  | None => Raise credentials_exception
                  end) = Raise e ->
            bindable (jwt.sub (jwt.payload j)) = true ->
            e = credentials_exception
            \/ (well_typed (jwt.compact j) = false
                /\ (e = DBAPIError \/ e = OverflowError \/ e = TypeError
                    \/ e = RecursionError))).
  { intros j user H Hbind.
    destruct (verified_parse (secret_key user) j now); [discriminate |].
    destruct (verified_parse_escape (secret_key user) j now) as [e' |] eqn:Hesc;
      injection H as <-; [| now left].
    apply verified_parse_escape_some in Hesc as (_ & He & Hread).
    right. split; [| tauto].
    cbn [well_typed]. rewrite Hbind. cbn [andb].
    now rewrite <- !andb_assoc in *. }
  destruct token as [j | raw | raw];
    [| intros [= <-]; now left | intros [= <-]; right; split; auto].
  destruct (jwt.sub (jwt.payload j)) as [[s | text | |] |] eqn:Hsub; cbn [get_user].
  - destruct (select_by_username db s) as [user |];
      [intros H; apply (Hfound j user H); now rewrite Hsub
      | intros [= <-]; now left].
  - destruct (select_by_username db text) as [user |];
      [intros H; apply (Hfound j user H); now rewrite Hsub
      | intros [= <-]; now left].
  - intros [= <-]. right. cbn [well_typed]. rewrite Hsub. auto.
  - intros [= <-]. right. cbn [well_typed]. rewrite Hsub. auto.
  - intros [= <-]. now left.
Qed.


Lemma get_current_user_resolved (token : jwt.token) (db : Session)
    (now : datetime) (user : UserModel) :
  get_current_user token db now = Return user <->
  exists j, token = jwt.compact j
            /\ jwt.sub (jwt.payload j) = Some (PyStr (username user))
            /\ select_by_username db (username user) = Some user
            /\ verified_parse (secret_key user) j now = true.
Proof.
  rewrite get_current_user_cases. split.
  - destruct token as [j | raw | raw]; [| discriminate | discriminate].
    destruct (jwt.sub (jwt.payload j)) as [[s | text | |] |] eqn:Hsub;
      cbn [get_user]; try discriminate.
    + destruct (select_by_username db s) as [u |] eqn:Hget; [| discriminate].
      destruct (verified_parse (secret_key u) j now) eqn:Hver;
        [| destruct (verified_parse_escape _ _ _); discriminate].
      intros [= ->].
      destruct (select_username db s user Hget) as [_ <-].
      exists j. repeat split; assumption.
    + destruct (select_by_username db text) as [u |] eqn:Hget; [| discriminate].
      destruct (verified_parse (secret_key u) j now) eqn:Hver;
        [| destruct (verified_parse_escape _ _ _); discriminate].
      exfalso. apply verified_parse_true in Hver as (_ & _ & Hval).
      apply claims_valid_true in Hval as (_ & _ & _ & _ & _ & _ & _ & Hstr & _).
      rewrite Hsub in Hstr. discriminate.
  - intros (j & -> & Hsub & Hget & Hver).
    rewrite Hsub. cbn [get_user]. now rewrite Hget, Hver.
Qed.


(** The endpoint in terms of the check: its [try] block is the one of
    [get_current_user]. *)
Lemma account_activation_cases (token : jwt.token) (db : Session) (now : datetime) :
  account_activation token db now =
  match get_current_user token db now with
  | Return user =>
      (Return {| isSuccessful := true;
                 message := "Account activated successfully";
                 data := [] |},
       db_set_activated_commit user db)
  | Raise e => (Raise e, db)
  end.
Proof. reflexivity. Qed.

(** The row a successful check resolved, as the UPDATE leaves it. *)
Lemma select_resolved_after_activation (token : jwt.token) (db : Session)
    (now : datetime) (user : UserModel) :
  get_current_user token db now = Return user ->
  select_by_username (db_set_activated_commit user db) (username user)
  = Some (with_activated true user).
Proof.
  intros Hcheck.
  apply get_current_user_resolved in Hcheck as (j & _ & _ & Hget & _).
  rewrite select_after_activation, Hget. simpl. now rewrite Z.eqb_refl.
Qed.


(** C10.  When [account_activation] fails, the table is the one it was
    given: the update and its commit come after the verified parse.  The
    failure is the 401 exception or, for a token not typed the way the check
    expects, the exception of a collaborator; the table is untouched in
    both cases. *)
Theorem account_activation_failure_keeps_store (token : jwt.token) (db : Session)
    (now : datetime) (e : exn) :
  fst (account_activation token db now) = Raise e ->
  (e = credentials_exception \/ (well_typed token = false /\ server_error e))
  /\ snd (account_activation token db now) = db.
Proof.
  rewrite account_activation_cases.
  destruct (get_current_user token db now) as [user | e'] eqn:Hcheck; simpl.
  - discriminate.
  - intros [= <-]. split; [| reflexivity].
    now apply get_current_user_failure in Hcheck.
Qed.

End VerificationFacts.

(* ===================================================================== *)
(** * Issuing tokens, and checking what was issued *)
(* ===================================================================== *)

Lemma timegm_floor (dt : datetime) :
  timegm dt * microseconds_per_second <= dt
  < timegm dt * microseconds_per_second + microseconds_per_second.
Proof.
  unfold timegm, microseconds_per_second.
  pose proof (Z.div_mod dt 1000000 ltac:(lia)).
  pose proof (Z.mod_pos_bound dt 1000000 ltac:(lia)).
  lia.
Qed.

Lemma timegm_add_seconds (dt s : Z) :
  timegm (dt + timedelta_seconds s) = timegm dt + s.
Proof.
  unfold timegm, timedelta_seconds, microseconds_per_second.
  now rewrite Z.div_add by lia.
Qed.

Lemma datetime_add_cases (dt : datetime) (delta : timedelta) :
  datetime_add dt delta
  = if representable (dt + delta) then Return (dt + delta) else Raise OverflowError.
Proof. reflexivity. Qed.

Section IssuanceFacts.
Context {algorithms_registry : jwt.Algorithms} {pwd_context : CryptContext}.

(** The function as one conditional: the expiry is [now] plus the delta
    that counts, the token is issued when that date exists. *)
Lemma create_access_token_cases (data : jwt.payload_dict) (key : string)
    (expires_delta : option timedelta) (now : datetime) :
  let delta :=
    match expires_delta with
    | Some d => if d =? 0 then timedelta_minutes 15 else d
    | None => timedelta_minutes 15
    end in
  create_access_token data key expires_delta now
  = if representable (now + delta)
    then Return (jwt.encode (jwt.update_exp data (now + delta)) key ALGORITHM)
    else Raise OverflowError.
Proof.
  unfold create_access_token, timedelta_bool, datetime_add.
  destruct expires_delta as [d |]; [destruct (d =? 0) |]; cbn [negb];
    match goal with |- context [representable ?x] => destruct (representable x) end;
    reflexivity.
Qed.

Lemma create_access_token_explicit (data : jwt.payload_dict) (key : string)
    (delta : timedelta) (now : datetime) :
  delta <> 0 ->
  representable (now + delta) = true ->
  create_access_token data key (Some delta) now
  = Return (jwt.encode (jwt.update_exp data (now + delta)) key ALGORITHM).
Proof.
  intros Hne Hrep. rewrite create_access_token_cases. cbn zeta.
  destruct (Z.eqb_spec delta 0) as [H0 | _]; [contradiction |].
  now rewrite Hrep.
Qed.

Lemma create_access_token_returns (data : jwt.payload_dict) (key : string)
    (expires_delta : option timedelta) (now : datetime) (t : jwt.token) :
  create_access_token data key expires_delta now = Return t ->
  exists delta,
    delta = match expires_delta with
            | Some d => if d =? 0 then timedelta_minutes 15 else d
            | None => timedelta_minutes 15
            end
    /\ representable (now + delta) = true
    /\ t = jwt.encode (jwt.update_exp data (now + delta)) key ALGORITHM.
Proof.
  rewrite create_access_token_cases. cbn zeta. intros H.
  eexists. split; [reflexivity |].
  match type of H with context [representable ?x] =>
    destruct (representable x); [| discriminate] end.
  injection H as <-. now split.
Qed.

Lemma issued_exp_encode (data : jwt.payload_dict) (key : string) (expire : datetime) :
  issued_exp (jwt.encode (jwt.update_exp data expire) key ALGORITHM)
  = Some (jwt.int_of (timegm expire)).
Proof. reflexivity. Qed.

(** With a non-zero [expires_delta] the token expires at [now + delta], as a
    NumericDate; with none it expires 15 minutes from [now]. *)
Lemma create_access_token_exp (data : jwt.payload_dict) (key : string)
    (now : datetime) :
  (forall delta t, delta <> 0 ->
     create_access_token data key (Some delta) now = Return t ->
     issued_exp t = Some (jwt.int_of (timegm (now + delta))))
  /\ (forall t,
        create_access_token data key None now = Return t ->
        issued_exp t = Some (jwt.int_of (timegm now + 15 * 60))).
Proof.
  split.
  - intros delta t Hne Hret.
    apply create_access_token_returns in Hret as (d & -> & _ & ->).
    destruct (Z.eqb_spec delta 0); [contradiction |].
    apply issued_exp_encode.
  - intros t Hret.
    apply create_access_token_returns in Hret as (d & -> & _ & ->).
    rewrite issued_exp_encode.
    unfold timedelta_minutes. now rewrite timegm_add_seconds.
Qed.

(** The login flow passes 30 minutes. *)
Lemma login_issues_30_minutes (form_data : OAuth2PasswordRequestForm)
    (db : Session) (now : datetime) (t : Token) :
  login_for_access_token form_data db now = Return t ->
  issued_exp (access_token t) = Some (jwt.int_of (timegm now + 30 * 60)).
Proof.
  unfold login_for_access_token.
  destruct (authenticate_user db _ _) as [[user |] | e]; cbn [bind];
    try discriminate.
  destruct (create_access_token _ _ _ now) as [tok | e] eqn:Hcreate; cbn [bind];
    [| discriminate].
  intros [= <-]. cbn [access_token].
  apply (proj1 (create_access_token_exp _ _ _)) in Hcreate;
    [| vm_compute; discriminate].
  rewrite Hcreate.
  unfold ACCESS_TOKEN_EXPIRE_MINUTES, timedelta_minutes.
  now rewrite timegm_add_seconds.
Qed.

(** The retrieve path passes nothing and gets the 15-minute fallback. *)
Lemma retrieve_issues_15_minutes (current_user : UserModel) (db : Session)
    (now : datetime) (r : GeneralResponseModel) :
  retrieve_access_token current_user db now = Return r ->
  List.map issued_exp (data r) = [Some (jwt.int_of (timegm now + 15 * 60))].
Proof.
  unfold retrieve_access_token. cbn [get_user bind].
  destruct (select_by_username db (username current_user)) as [user |];
    [| discriminate].
  destruct (create_access_token _ _ None now) as [tok | e] eqn:Hcreate; cbn [bind];
    [| discriminate].
  intros [= <-]. cbn [data List.map].
  now rewrite (proj2 (create_access_token_exp _ _ _) tok Hcreate).
Qed.

(** C6, at [expires_delta = timedelta(0)].  The test [if expires_delta:]
    takes an explicit zero for an absent argument: the call does what the
    call with no [expires_delta] does, and the token it issues (it issues
    one whenever 15 minutes from [now] is a date) expires 15 minutes after
    [now], not at [now]. *)
Theorem create_access_token_zero_delta (data : jwt.payload_dict) (key : string)
    (now : datetime) :
  create_access_token data key (Some 0) now = create_access_token data key None now
  /\ (forall t,
        create_access_token data key (Some 0) now = Return t ->
        issued_exp t = Some (jwt.int_of (timegm now + 15 * 60))
        /\ issued_exp t <> Some (jwt.int_of (timegm (now + 0))))
  /\ (representable (now + timedelta_minutes 15) = true ->
      exists t, create_access_token data key (Some 0) now = Return t).
Proof.
  assert (Hsame : create_access_token data key (Some 0) now
                  = create_access_token data key None now) by reflexivity.
  split; [exact Hsame |]. split.
  - intros t Ht. rewrite Hsame in Ht.
    rewrite (proj2 (create_access_token_exp data key now) t Ht).
    split; [reflexivity |].
    rewrite Z.add_0_r. intros [= H]. lia.
  - intros Hrep. rewrite Hsame, create_access_token_cases. cbn zeta.
    rewrite Hrep. eauto.
Qed.

(** What [get_current_user] answers on a token freshly encoded for a user
    of the table under that user's key: the expiry alone decides. *)
Lemma issued_token_check (db : Session) (u : UserModel) (expire now : datetime) :
  select_by_username db (username u) = Some u ->
  get_current_user
    (jwt.encode (jwt.update_exp (sub_only (username u)) expire) (secret_key u) ALGORITHM)
    db now
  = if timegm expire * microseconds_per_second <=? now
    then Raise credentials_exception else Return u.
Proof.
  intros Hget. rewrite get_current_user_cases.
  cbn [jwt.encode jwt.payload jwt.sub jwt.update_exp sub_only jwt.dict_sub get_user].
  rewrite Hget.
  rewrite verified_parse_escape_readable by reflexivity.
  unfold verified_parse, signed_by.
  cbn [jwt.protected jwt.payload jwt.signature jwt.alg].
  rewrite !String.eqb_refl. cbn [andb].
  unfold claims_valid, expired, ahead, names_audience, string_or_absent,
    integer_or_absent.
  cbn [jwt.exp jwt.nbf jwt.iat jwt.aud jwt.sub jwt.jti jwt.dict_exp jwt.dict_nbf
       jwt.dict_iat jwt.dict_aud jwt.dict_jti jwt.dict_sub jwt.update_exp sub_only
       option_map jwt.numeric_date negb andb].
  rewrite !andb_true_r.
  now destruct (_ <=? _).
Qed.

End IssuanceFacts.

(* ===================================================================== *)
(** * Registration and login *)
(* ===================================================================== *)

Section AccountFacts.
Context {algorithms_registry : jwt.Algorithms} {pwd_context : CryptContext}.

Lemma get_user_str (db : Session) (name : string) :
  get_user db (PyStr name) = Return (select_by_username db name).
Proof. reflexivity. Qed.

Lemma register_user_cases (request : RegisterUserRequest) (tape : entropy)
    (db : Session) :
  register_user request tape db =
  if secret_refused (request_password request)
  then (Raise PasswordValueError, db)
  else if violates_unique (pending_user request tape) db
       then (Raise IntegrityError, db)
       else (Return (registration_response request tape),
             db ++ [with_id (next_rowid db) (pending_user request tape)]).
Proof.
  unfold register_user, get_password_hash.
  destruct (secret_refused (request_password request)); [reflexivity |].
  unfold db_add_commit_refresh, pending_user, registration_response,
    drawn_secret_key, drawn_client_id, generate_client_id,
    generate_random_hex, token_hex, token_bytes.
  cbn [fst snd].
  match goal with |- context [violates_unique ?u db] =>
    destruct (violates_unique u db) end; reflexivity.
Qed.

Lemma register_user_wf (request : RegisterUserRequest) (tape : entropy)
    (db : Session) :
  wf_db db -> wf_db (snd (register_user request tape db)).
Proof.
  intros Hwf. rewrite register_user_cases.
  destruct (secret_refused (request_password request)); [assumption |].
  pose proof (db_add_commit_refresh_wf (pending_user request tape) db Hwf) as H.
  unfold db_add_commit_refresh in H.
  now destruct (violates_unique (pending_user request tape) db).
Qed.

(** C9.  The secret key registration generates is 64 lowercase hexadecimal
    characters and the client id 14 uppercase hexadecimal characters, both
    as the generators produce them from any tape and as a successful
    registration returns and stores them. *)
Theorem registration_secrets_format (request : RegisterUserRequest)
    (tape : entropy) (db : Session) :
  secret_key_format (fst (generate_random_hex 32 tape))
  /\ client_id_format (fst (generate_client_id tape))
  /\ forall resp db',
       register_user request tape db = (Return resp, db') ->
       secret_key_format (response_secret_key resp)
       /\ client_id_format (response_client_id resp)
       /\ exists row,
            get_user db' (PyStr (request_username request)) = Return (Some row)
            /\ secret_key row = response_secret_key resp
            /\ client_id row = response_client_id resp.
Proof.
  split; [apply generate_random_hex_format |].
  split; [apply generate_client_id_format |].
  intros resp db'. rewrite register_user_cases.
  destruct (secret_refused (request_password request)); [discriminate |].
  destruct (violates_unique (pending_user request tape) db) eqn:E; [discriminate |].
  intros [= <- <-]. cbn [registration_response response_secret_key response_client_id].
  split; [apply generate_random_hex_format |].
  split; [apply generate_client_id_format |].
  exists (with_id (next_rowid db) (pending_user request tape)).
  split; [| split; reflexivity].
  rewrite get_user_str. f_equal.
  apply (select_snoc_fresh db (with_id (next_rowid db) (pending_user request tape))).
  intros u Hu.
  now destruct (proj1 (violates_unique_false _ db) E u Hu) as (H & _).
Qed.

(** C4, as the code has it.  A username or an email already in the table
    makes the registration fail and leaves the table unchanged; nothing
    catches the exception, so the transport answers 500; for a password the
    hashing context accepts, the exception is the session's integrity
    error.  When the password is one the context accepts and the username,
    the email and the two freshly drawn identifiers are all unused, the
    registration succeeds and the table gains the new row, not yet
    activated.  A password the context refuses fails the registration
    before anything is inserted. *)
Theorem register_user_conflict_or_created (request : RegisterUserRequest)
    (tape : entropy) (db : Session) :
  ((exists u, In u db /\ (username u = request_username request
                          \/ email u = request_email request)) ->
   (exists e, register_user request tape db = (Raise e, db))
   /\ http_status (fst (register_user request tape db)) = 500
   /\ (secret_refused (request_password request) = false ->
       register_user request tape db = (Raise IntegrityError, db)))
  /\ (secret_refused (request_password request) = false ->
      (forall u, In u db ->
         username u <> request_username request
         /\ email u <> request_email request
         /\ secret_key u <> drawn_secret_key tape
         /\ client_id u <> drawn_client_id tape) ->
      exists row,
        register_user request tape db
        = (Return (registration_response request tape), db ++ [row])
        /\ get_user (db ++ [row]) (PyStr (request_username request))
           = Return (Some row)
        /\ username row = request_username request
        /\ email row = request_email request
        /\ secret_key row = drawn_secret_key tape
        /\ client_id row = drawn_client_id tape
        /\ activated row = false)
  /\ (secret_refused (request_password request) = true ->
      register_user request tape db = (Raise PasswordValueError, db)
      /\ http_status (fst (register_user request tape db)) = 500).
Proof.
  rewrite register_user_cases. split; [| split].
  - intros Hconflict.
    rewrite (violates_unique_true (pending_user request tape) db Hconflict).
    destruct (secret_refused (request_password request));
      repeat split; eauto; discriminate.
  - intros Hok Hfresh. rewrite Hok.
    rewrite (proj2 (violates_unique_false (pending_user request tape) db) Hfresh).
    exists (with_id (next_rowid db) (pending_user request tape)).
    repeat split.
    rewrite get_user_str. f_equal.
    apply (select_snoc_fresh db (with_id (next_rowid db) (pending_user request tape))).
    intros u Hu. now destruct (Hfresh u Hu) as (H & _).
  - intros Hrefused. rewrite Hrefused. now split.
Qed.

(** The two failing cases of a login, for a password the context takes. *)
Lemma login_failures_agree (db db' : Session)
    (name password name' password' : string) (u : UserModel) (now now' : datetime) :
  get_user db (PyStr name) = Return None ->
  get_user db' (PyStr name') = Return (Some u) ->
  verify_password password' (hashed_password u) = Return false ->
  authenticate_user db name password = Return None
  /\ authenticate_user db' name' password' = Return None
  /\ login_for_access_token
       {| form_username := name; form_password := password |} db now
     = login_for_access_token
         {| form_username := name'; form_password := password' |} db' now'
  /\ login_for_access_token
       {| form_username := name'; form_password := password' |} db' now'
     = Raise (HTTPException 401 "Incorrect username or password"
                            [("WWW-Authenticate", "Bearer")]).
Proof.
  intros Hunknown Hknown Hwrong.
  assert (H1 : authenticate_user db name password = Return None)
    by (unfold authenticate_user; now rewrite Hunknown).
  assert (H2 : authenticate_user db' name' password' = Return None)
    by (unfold authenticate_user; rewrite Hknown; cbn [bind]; now rewrite Hwrong).
  unfold login_for_access_token. cbn [form_username form_password].
  now rewrite H1, H2.
Qed.

(** A password the context refuses is only ever shown to it for a known
    username. *)
Lemma login_refused_password (db : Session) (name password : string)
    (now : datetime) :
  secret_refused password = true ->
  match get_user db (PyStr name) with
  | Return None =>
      login_for_access_token
        {| form_username := name; form_password := password |} db now
      = Raise (HTTPException 401 "Incorrect username or password"
                             [("WWW-Authenticate", "Bearer")])
  | Return (Some u) =>
      login_for_access_token
        {| form_username := name; form_password := password |} db now
      = Raise (if context_identify (hashed_password u)
               then PasswordValueError else UnknownHashError)
  | Raise e => False
  end.
Proof.
  intros Hrefused.
  unfold login_for_access_token, authenticate_user, verify_password.
  cbn [form_username form_password get_user bind].
  destruct (select_by_username db name) as [u |]; [| reflexivity].
  destruct (context_identify (hashed_password u)); cbn [negb bind];
    [now rewrite Hrefused | reflexivity].
Qed.

(** C5.  An unknown username and a known username with a wrong password get
    the same answer as long as the context takes the password:
    [authenticate_user] returns [False] in both cases and the login
    endpoint raises one and the same 401 exception.  A password the
    context refuses (one holding a NUL, one over 4096 characters) tells the
    two apart: for an unknown username it is never shown to the context and
    the answer is the 401, for a known one [verify_password] raises and the
    transport answers 500. *)
Theorem login_enumeration_resistance (db db' : Session)
    (name name' : string) (u : UserModel) (now now' : datetime) :
  (forall password password',
     get_user db (PyStr name) = Return None ->
     get_user db' (PyStr name') = Return (Some u) ->
     verify_password password' (hashed_password u) = Return false ->
     authenticate_user db name password = Return None
     /\ authenticate_user db' name' password' = Return None
     /\ login_for_access_token
          {| form_username := name; form_password := password |} db now
        = login_for_access_token
            {| form_username := name'; form_password := password' |} db' now'
     /\ login_for_access_token
          {| form_username := name'; form_password := password' |} db' now'
        = Raise (HTTPException 401 "Incorrect username or password"
                               [("WWW-Authenticate", "Bearer")]))
  /\ (forall password,
        secret_refused password = true ->
        get_user db (PyStr name) = Return None ->
        get_user db' (PyStr name') = Return (Some u) ->
        http_status (login_for_access_token
                       {| form_username := name; form_password := password |} db now)
        = 401
        /\ http_status (login_for_access_token
                          {| form_username := name'; form_password := password |}
                          db' now')
           = 500
        /\ login_for_access_token
             {| form_username := name; form_password := password |} db now
           <> login_for_access_token
                {| form_username := name'; form_password := password |} db' now').
Proof.
  split.
  - intros password password'. apply login_failures_agree.
  - intros password Hrefused Hunknown Hknown.
    pose proof (login_refused_password db name password now Hrefused) as H1.
    pose proof (login_refused_password db' name' password now' Hrefused) as H2.
    rewrite Hunknown in H1. rewrite Hknown in H2. rewrite H1, H2.
    destruct (context_identify (hashed_password u)); repeat split; discriminate.
Qed.

End AccountFacts.

(* ===================================================================== *)
(** * Round trip, expiry and forgery *)
(* ===================================================================== *)

Section TokenLifeFacts.
Context {algorithms_registry : jwt.Algorithms}.

(** The expiry written into a token is a whole number of seconds, so a
    token issued at [now] for [ttl] is good until the last whole second at
    or before [now + ttl], and no longer. *)
Lemma issued_token_window (db : Session) (u : UserModel) (ttl : timedelta)
    (now now' : datetime) (t : jwt.token) :
  select_by_username db (username u) = Some u ->
  ttl <> 0 ->
  create_access_token (sub_only (username u)) (secret_key u) (Some ttl) now
  = Return t ->
  get_current_user t db now'
  = if timegm (now + ttl) * microseconds_per_second <=? now'
    then Raise credentials_exception else Return u.
Proof.
  intros Hget Hne Hcreate.
  apply create_access_token_returns in Hcreate as (d & -> & _ & ->).
  destruct (Z.eqb_spec ttl 0); [contradiction |].
  now apply issued_token_check.
Qed.

(** C2, as the code has it.  For a user [u] of the table and a [ttl] of at
    least one second that leads to a date Python can hold, the token is
    issued to [u] under [u]'s key at [now], and it resolves to [u] when
    verified at once, and at any later reading of the clock up to
    [now + ttl] less one second. *)
Theorem issued_token_round_trip (db : Session) (u : UserModel) (ttl : timedelta)
    (now now' : datetime) :
  wf_db db ->
  In u db ->
  timedelta_seconds 1 <= ttl ->
  now' <= now + ttl - timedelta_seconds 1 ->
  representable (now + ttl) = true ->
  exists t,
    create_access_token (sub_only (username u)) (secret_key u) (Some ttl) now
    = Return t
    /\ get_current_user t db now = Return u
    /\ get_current_user t db now' = Return u.
Proof.
  intros (_ & Hnames & _) Hin Httl Hnow' Hrep.
  pose proof (select_of_row db u Hnames Hin) as Hget.
  assert (Hne : ttl <> 0) by (unfold timedelta_seconds, microseconds_per_second in *; lia).
  pose proof (timegm_floor (now + ttl)) as Hfloor.
  unfold timedelta_seconds in *.
  eexists. split; [now apply create_access_token_explicit |].
  split; rewrite issued_token_check by assumption.
  - destruct (Z.leb_spec (timegm (now + ttl) * microseconds_per_second) now);
      [unfold microseconds_per_second in *; lia | reflexivity].
  - destruct (Z.leb_spec (timegm (now + ttl) * microseconds_per_second) now');
      [unfold microseconds_per_second in *; lia | reflexivity].
Qed.



(** C3.  Let [u] and [v] be distinct users of the table, whose keys then
    differ, and let a token name [u] as its subject while its tag was
    computed under [v]'s key; if that tag is not the one [u]'s key gives,
    the token is refused with the 401 exception.  And whenever a token is
    accepted, the user returned is the row its subject names and the tag
    verifies under that row's stored key. *)
Theorem cross_user_forgery_rejected (db : Session) (u v : UserModel)
    (h : jwt.header) (c : jwt.claims) (now : datetime) :
  wf_db db ->
  In u db ->
  In v db ->
  u <> v ->
  jwt.sub c = Some (PyStr (username u)) ->
  jwt.hmac_sign ALGORITHM (secret_key u) (h, c)
    <> jwt.hmac_sign ALGORITHM (secret_key v) (h, c) ->
  secret_key u <> secret_key v
  /\ get_current_user
       (jwt.compact {| jwt.protected := h; jwt.payload := c;
                       jwt.signature := jwt.hmac_sign ALGORITHM (secret_key v) (h, c) |})
       db now
     = Raise credentials_exception
  /\ forall token now' w,
       get_current_user token db now' = Return w ->
       exists j,
         token = jwt.compact j
         /\ jwt.sub (jwt.payload j) = Some (PyStr (username w))
         /\ get_user db (PyStr (username w)) = Return (Some w)
         /\ jwt.hmac_sign ALGORITHM (secret_key w) (jwt.protected j, jwt.payload j)
            = jwt.signature j.
Proof.
  intros (_ & Hnames & _ & Hkeys & _) Hu Hv Hdistinct Hsub Htag.
  split; [| split].
  - intro Heq. apply Hdistinct.
    exact (NoDup_map_eq secret_key db u v Hkeys Hu Hv Heq).
  - rewrite get_current_user_cases. cbn [jwt.payload].
    rewrite Hsub. cbn [get_user]. rewrite (select_of_row db u Hnames Hu).
    assert (Hrej : verified_parse (secret_key u)
                     {| jwt.protected := h; jwt.payload := c;
                        jwt.signature := jwt.hmac_sign ALGORITHM (secret_key v) (h, c) |}
                     now = false)
      by (apply verified_parse_false; right; left; exact Htag).
    rewrite Hrej.
    now rewrite verified_parse_escape_unsigned
      by (apply signed_by_false; right; exact Htag).
  - intros token now' w Hok.
    apply get_current_user_resolved in Hok as (j & -> & Hsubj & Hget & Hver).
    apply verified_parse_true in Hver as (_ & Hsig & _).
    exists j. cbn [get_user]. rewrite Hget. repeat split; assumption.
Qed.

End TokenLifeFacts.

(* ===================================================================== *)
(** * The service on concrete inputs *)
(* ===================================================================== *)

Section Scenario.

#[local] Existing Instance Toy.algorithms.
#[local] Existing Instance Toy.pwd_context.

Lemma wf_one : wf_db [alice].
Proof. solve_wf. Defined.

Lemma wf_two : wf_db [alice; bob].
Proof. solve_wf. Defined.

Example register_alice_then_bob :
  register_user alice_request Toy.tape_a []
  = (Return {| response_username := "alice"; response_email := "alice@x.com";
               response_secret_key := secret_key alice;
               response_client_id := client_id alice |}, [alice])
  /\ register_user bob_request Toy.tape_b [alice]
     = (Return {| response_username := "bob"; response_email := "bob@x.com";
                  response_secret_key := secret_key bob;
                  response_client_id := client_id bob |}, [alice; bob]).
Proof. split; vm_compute; reflexivity. Qed.

(** The concrete scenario of the specification, end to end: a wrong
    password is a 401, the right one a token; who-am-I before activation is
    a 400; activation with a token under alice's key succeeds; afterwards
    the same token resolves to alice, activated. *)
Example alice_end_to_end :
  let wrong := {| form_username := "alice"; form_password := "pw124" |} in
  http_status (login_for_access_token wrong [alice] noon) = 401
  /\ login_for_access_token alice_login [alice] noon = Return alice_token
  /\ get_current_user (access_token alice_token) [alice] noon = Return alice
  /\ http_status (current_user <- get_current_user (access_token alice_token)
                                    [alice] noon ;;
                  get_current_active_user current_user) = 400
  /\ snd (account_activation (access_token alice_token) [alice] noon)
     = [with_activated true alice]
  /\ List.map activated
       (snd (account_activation (access_token alice_token) [alice] noon))
     = [true]
  /\ (current_user <- get_current_user (access_token alice_token)
                        [with_activated true alice] noon ;;
      current_user <- get_current_active_user current_user ;;
      read_users_me current_user)
     = Return (with_activated true alice).
Proof. repeat split; vm_compute; reflexivity. Qed.

(** C1, C7 and C8 at their failing input: a token that parses, with or
    without an expiry long past, whose [sub] is a JSON array.  The check and
    the activation end in the driver's error, a 500, and not in the 401. *)
Example array_sub_is_a_server_error :
  get_current_user (array_sub_token None) [alice] noon = Raise DBAPIError
  /\ get_current_user (array_sub_token (Some 1)) [alice] noon = Raise DBAPIError
  /\ http_status (get_current_user (array_sub_token (Some 1)) [alice] noon) = 500
  /\ account_activation (array_sub_token None) [alice] noon
     = (Raise DBAPIError, [alice])
  /\ http_status (fst (account_activation (array_sub_token None) [alice] noon)) = 500.
Proof. repeat split. Qed.

(** The same defect on other tokens.  Alice, who holds her secret key,
    tags a token that names her, expired long ago, whose [nbf] is JSON
    [null]: validation calls [int()] on it before it looks at the expiry,
    and the [TypeError] leaves the check.  A token nested deeper than the
    interpreter's stack ends the first parse in a [RecursionError].  None
    of them touches the table. *)
Example collaborator_errors_escape :
  expired null_nbf_claims noon = true
  /\ signed_by (secret_key alice)
       {| jwt.protected := {| jwt.alg := "HS256"; jwt.typ := "JWT" |};
          jwt.payload := null_nbf_claims;
          jwt.signature :=
            jwt.hmac_sign ALGORITHM (secret_key alice)
              ({| jwt.alg := "HS256"; jwt.typ := "JWT" |}, null_nbf_claims) |}
     = true
  /\ get_current_user null_nbf_token [alice] noon = Raise TypeError
  /\ http_status (get_current_user null_nbf_token [alice] noon) = 500
  /\ account_activation null_nbf_token [alice] noon = (Raise TypeError, [alice])
  /\ forall raw,
       get_current_user (jwt.too_deep raw) [alice] noon = Raise RecursionError
       /\ http_status (get_current_user (jwt.too_deep raw) [alice] noon) = 500.
Proof. repeat split; vm_compute; reflexivity. Qed.

(** The verified parse looks at more than the tag and the expiry.  Tokens
    that name alice and carry the tag her key gives, good for half an hour
    more, are refused when they also carry an [nbf] or an [iat] still
    ahead of the clock, or any audience. *)
Example other_claims_are_validated :
  let minted c :=
    jwt.compact
      {| jwt.protected := {| jwt.alg := "HS256"; jwt.typ := "JWT" |};
         jwt.payload := c;
         jwt.signature :=
           jwt.hmac_sign ALGORITHM (secret_key alice)
             ({| jwt.alg := "HS256"; jwt.typ := "JWT" |}, c) |} in
  let claims nbf iat aud :=
    {| jwt.sub := Some (PyStr "alice"); jwt.exp := Some (jwt.int_of 1700001800);
       jwt.nbf := nbf; jwt.iat := iat; jwt.aud := aud; jwt.jti := None |} in
  get_current_user (minted (claims None None None)) [alice] noon = Return alice
  /\ get_current_user
       (minted (claims (Some (jwt.int_of 1700000900)) None None)) [alice] noon
     = Raise credentials_exception
  /\ get_current_user
       (minted (claims None (Some (jwt.int_of 1700000900)) None)) [alice] noon
     = Raise credentials_exception
  /\ get_current_user
       (minted (claims None None (Some (jwt.aud_one "api")))) [alice] noon
     = Raise credentials_exception
  /\ get_current_user
       (minted (claims (Some (jwt.int_of 1699999000)) (Some (jwt.int_of 1699999000))
                       None)) [alice] noon
     = Return alice.
Proof. repeat split; vm_compute; reflexivity. Qed.

(** A [ttl] of three million days leads past the year 9999: the sum
    raises and no token is issued. *)
Example far_future_ttl_overflows :
  representable (noon + timedelta_seconds (3000000 * 86400)) = false
  /\ create_access_token (sub_only "alice") (secret_key alice)
                         (Some (timedelta_seconds (3000000 * 86400))) noon
     = Raise OverflowError.
Proof. split; vm_compute; reflexivity. Qed.

(** C5 at its failing input: the password holds a NUL.  For alice, who is
    registered, the login ends in passlib's error, a 500; for carol, who is
    not, in the 401. *)
Example nul_password_tells_users_apart :
  secret_refused nul_password = true
  /\ login_for_access_token
       {| form_username := "alice"; form_password := nul_password |} [alice] noon
     = Raise PasswordValueError
  /\ http_status (login_for_access_token
                    {| form_username := "alice"; form_password := nul_password |}
                    [alice] noon) = 500
  /\ http_status (login_for_access_token
                    {| form_username := "carol"; form_password := nul_password |}
                    [alice] noon) = 401.
Proof. repeat split; vm_compute; reflexivity. Qed.

(** C2, witness: alice's token for 30 minutes, checked at once and 29
    minutes later. *)
Lemma issued_token_round_trip_witness :
  exists t,
    create_access_token (sub_only (username alice)) (secret_key alice)
                        (Some (timedelta_minutes 30)) noon
    = Return t
    /\ get_current_user t [alice] noon = Return alice
    /\ get_current_user t [alice] (noon + timedelta_minutes 29) = Return alice.
Proof.
  refine (issued_token_round_trip [alice] alice (timedelta_minutes 30) noon
            (noon + timedelta_minutes 29) wf_one _ _ _ _).
  - simpl. left. reflexivity.
  - vm_compute. discriminate.
  - vm_compute. discriminate.
  - vm_compute. reflexivity.
Defined.

(** C2, counterexample: a positive [ttl] of half a second.  The expiry
    [noon + 0.5 s] is a date Python holds; it is written into the token as
    the whole second before [noon], so the token is refused at the very
    reading of the clock it was issued at. *)
Lemma sub_second_ttl_refused_at_once :
  wf_db [alice] /\ In alice [alice] /\ 0 < 500000
  /\ representable (noon + 500000) = true
  /\ exists t,
       create_access_token (sub_only (username alice)) (secret_key alice)
                           (Some 500000) noon
       = Return t
       /\ issued_exp t = Some (jwt.int_of 1700000000)
       /\ get_current_user t [alice] noon = Raise credentials_exception
       /\ get_current_user t [alice] noon <> Return alice.
Proof.
  split; [exact wf_one |].
  split; [left; reflexivity |].
  split; [reflexivity |].
  split; [reflexivity |].
  eexists. split; [vm_compute; reflexivity |].
  split; [vm_compute; reflexivity |].
  split; [vm_compute; reflexivity |].
  vm_compute. discriminate.
Qed.

(** C3, witness: a token naming alice, tagged under bob's key. *)
Lemma cross_user_forgery_rejected_witness :
  secret_key alice <> secret_key bob
  /\ get_current_user
       (jwt.compact
          {| jwt.protected := {| jwt.alg := "HS256"; jwt.typ := "JWT" |};
             jwt.payload := sub_and_exp (PyStr "alice") (Some 1700001800);
             jwt.signature :=
               jwt.hmac_sign ALGORITHM (secret_key bob)
                 ({| jwt.alg := "HS256"; jwt.typ := "JWT" |},
                  sub_and_exp (PyStr "alice") (Some 1700001800)) |})
       [alice; bob] noon
     = Raise credentials_exception.
Proof.
  destruct (cross_user_forgery_rejected [alice; bob] alice bob
              {| jwt.alg := "HS256"; jwt.typ := "JWT" |}
              (sub_and_exp (PyStr "alice") (Some 1700001800))
              noon wf_two) as (Hkeys & Hrefused & _).
  - simpl. left. reflexivity.
  - simpl. right. left. reflexivity.
  - discriminate.
  - reflexivity.
  - vm_compute. discriminate.
  - split; [exact Hkeys | exact Hrefused].
Defined.

(** C4, counterexample: registering alice twice, with a password the
    context accepts.  The second attempt raises the session's integrity
    error, which no handler turns into a response of the 4xx class: the
    transport answers 500.  A request whose username and email are new
    still fails when the tape yields a secret key already in the table, and
    a request into the empty table fails when its password holds a NUL. *)
Lemma duplicate_registration_is_server_error :
  (In alice [alice] /\ username alice = request_username alice_request
   /\ secret_refused (request_password alice_request) = false
   /\ register_user alice_request Toy.tape_b [alice] = (Raise IntegrityError, [alice])
   /\ http_status (fst (register_user alice_request Toy.tape_b [alice])) = 500
   /\ http_status (fst (register_user alice_request Toy.tape_b [alice])) <> 409
   /\ is_client_error
        (http_status (fst (register_user alice_request Toy.tape_b [alice]))) = false)
  /\ (get_user [alice] (PyStr (request_username bob_request)) = Return None
      /\ List.map email [alice] = ["alice@x.com"]
      /\ request_email bob_request = "bob@x.com"
      /\ register_user bob_request Toy.tape_a [alice] = (Raise IntegrityError, [alice]))
  /\ register_user
       {| request_username := "alice"; request_email := "alice@x.com";
          request_password := nul_password |} Toy.tape_a []
     = (Raise PasswordValueError, []).
Proof.
  split; [| split].
  - split; [left; reflexivity |].
    split; [reflexivity |].
    split; [vm_compute; reflexivity |].
    split; [vm_compute; reflexivity |].
    split; [vm_compute; reflexivity |].
    split; [vm_compute; discriminate | vm_compute; reflexivity].
  - repeat split; vm_compute; reflexivity.
  - vm_compute. reflexivity.
Qed.

(** C4, witness: the duplicate fails with the integrity error and leaves
    the table alone; bob, new in every column, is created. *)
Lemma register_user_conflict_or_created_witness :
  (register_user alice_request Toy.tape_b [alice] = (Raise IntegrityError, [alice])
   /\ http_status (fst (register_user alice_request Toy.tape_b [alice])) = 500)
  /\ exists row,
       register_user bob_request Toy.tape_b [alice]
       = (Return (registration_response bob_request Toy.tape_b), [alice] ++ [row])
       /\ get_user ([alice] ++ [row]) (PyStr (request_username bob_request))
          = Return (Some row)
       /\ username row = request_username bob_request
       /\ email row = request_email bob_request
       /\ secret_key row = drawn_secret_key Toy.tape_b
       /\ client_id row = drawn_client_id Toy.tape_b
       /\ activated row = false.
Proof.
  split.
  - destruct (proj1 (register_user_conflict_or_created alice_request Toy.tape_b [alice]))
      as (_ & Hstatus & Herr).
    + exists alice. split; [left; reflexivity | left; reflexivity].
    + split; [apply Herr; vm_compute; reflexivity | exact Hstatus].
  - apply (proj1 (proj2 (register_user_conflict_or_created
                           bob_request Toy.tape_b [alice]))).
    + vm_compute. reflexivity.
    + intros u [<- | []]. vm_compute. repeat split; discriminate.
Defined.

(** C9, witness: what alice was given at registration. *)
Lemma registration_secrets_format_witness :
  secret_key_format "101112131415161718191a1b1c1d1e1f202122232425262728292a2b2c2d2e2f"
  /\ client_id_format "30313233343536".
Proof.
  destruct (proj2 (proj2 (registration_secrets_format alice_request Toy.tape_a []))
              {| response_username := "alice"; response_email := "alice@x.com";
                 response_secret_key := secret_key alice;
                 response_client_id := client_id alice |}
              [alice])
    as (Hkey & Hcid & _).
  - vm_compute. reflexivity.
  - split; [exact Hkey | exact Hcid].
Defined.

(** C10, witness: an unparseable token, a well-tagged token naming nobody
    in the table, and a token whose [sub] is an array leave a table of two
    rows as it was. *)
Lemma account_activation_failure_keeps_store_witness :
  snd (account_activation (jwt.unparseable "not.a.token") [alice; bob] noon)
  = [alice; bob]
  /\ snd (account_activation
            (jwt.encode (jwt.update_exp (sub_only "carol")
                                        (noon + timedelta_minutes 30))
                        (secret_key alice) ALGORITHM)
            [alice; bob] noon)
     = [alice; bob]
  /\ snd (account_activation (array_sub_token None) [alice; bob] noon)
     = [alice; bob].
Proof.
  split; [| split].
  - apply (account_activation_failure_keeps_store
             (jwt.unparseable "not.a.token") [alice; bob] noon credentials_exception).
    reflexivity.
  - apply (account_activation_failure_keeps_store
             (jwt.encode (jwt.update_exp (sub_only "carol")
                                         (noon + timedelta_minutes 30))
                         (secret_key alice) ALGORITHM)
             [alice; bob] noon credentials_exception).
    vm_compute. reflexivity.
  - apply (account_activation_failure_keeps_store
             (array_sub_token None) [alice; bob] noon DBAPIError).
    reflexivity.
Defined.

(** C8 on concrete inputs: the same token is refused by both with a table
    that does not know its subject, and accepted by both with one that
    does. *)
Example activation_agrees_with_check :
  let t := jwt.encode (jwt.update_exp (sub_only "bob") (noon + timedelta_minutes 30))
                      (secret_key bob) ALGORITHM in
  get_current_user t [alice] noon = Raise credentials_exception
  /\ account_activation t [alice] noon = (Raise credentials_exception, [alice])
  /\ get_current_user t [alice; bob] noon = Return bob
  /\ snd (account_activation t [alice; bob] noon) = [alice; with_activated true bob].
Proof. repeat split; vm_compute; reflexivity. Qed.

End Scenario.

(* ===================================================================== *)
(** * Beyond single calls: routes, sequences of requests *)
(* ===================================================================== *)

Section LookupFacts.
Context {algorithms_registry : jwt.Algorithms} {pwd_context : CryptContext}.

Lemma select_app_found (db rest : Session) (name : string) (u : UserModel) :
  select_by_username db name = Some u ->
  select_by_username (db ++ rest) name = Some u.
Proof.
  unfold select_by_username. induction db as [| v db IH]; simpl; [discriminate |].
  destruct (username v =? name)%string; [trivial | exact IH].
Qed.

(** A row found under a name is the row that name finds. *)
Lemma select_self (db : Session) (name : string) (u : UserModel) :
  select_by_username db name = Some u ->
  select_by_username db (username u) = Some u.
Proof.
  intros H. now destruct (select_username db name u H) as [_ ->].
Qed.

(** The check reads the table through the subject's row only: a table in
    which the subject finds a row with the same key accepts the token for
    that row. *)
Lemma get_current_user_transfer (token : jwt.token) (db db' : Session)
    (now : datetime) (u u' : UserModel) :
  get_current_user token db now = Return u ->
  select_by_username db' (username u) = Some u' ->
  secret_key u' = secret_key u ->
  get_current_user token db' now = Return u'.
Proof.
  intros Hok Hget Hkey.
  apply get_current_user_resolved in Hok as (j & -> & Hsub & _ & Hver).
  destruct (select_username db' _ u' Hget) as [_ Hname].
  apply get_current_user_resolved. exists j.
  rewrite Hname, Hkey. repeat split; assumption.
Qed.

Lemma register_user_table (request : RegisterUserRequest) (tape : entropy)
    (db : Session) :
  snd (register_user request tape db) = db
  \/ snd (register_user request tape db)
     = db ++ [with_id (next_rowid db) (pending_user request tape)].
Proof.
  rewrite register_user_cases.
  destruct (secret_refused (request_password request)); [now left |].
  destruct (violates_unique (pending_user request tape) db); simpl; auto.
Qed.

Lemma account_activation_table (token : jwt.token) (db : Session) (now : datetime) :
  snd (account_activation token db now) = db
  \/ exists user,
       get_current_user token db now = Return user
       /\ snd (account_activation token db now) = db_set_activated_commit user db.
Proof.
  rewrite account_activation_cases.
  destruct (get_current_user token db now) as [user | e]; simpl; eauto.
Qed.

Lemma authenticate_user_some (db : Session) (name password : string)
    (user : UserModel) :
  authenticate_user db name password = Return (Some user) <->
  select_by_username db name = Some user
  /\ verify_password password (hashed_password user) = Return true.
Proof.
  unfold authenticate_user. cbn [get_user bind]. split.
  - destruct (select_by_username db name) as [u |]; [| discriminate].
    destruct (verify_password password (hashed_password u)) as [[|] | e] eqn:Hpw;
      cbn [bind negb]; try discriminate.
    intros [= <-]. now split.
  - intros [-> ->]. reflexivity.
Qed.

(** What login hands out is a token for the row that authenticated, good
    for 30 minutes counted from the whole second of issuance. *)
Lemma login_token (form_data : OAuth2PasswordRequestForm) (db : Session)
    (now : datetime) (t : Token) :
  login_for_access_token form_data db now = Return t ->
  exists user,
    select_by_username db (form_username form_data) = Some user
    /\ verify_password (form_password form_data) (hashed_password user) = Return true
    /\ token_type t = "bearer"
    /\ forall now',
         get_current_user (access_token t) db now'
         = if (timegm now + 30 * 60) * microseconds_per_second <=? now'
           then Raise credentials_exception else Return user.
Proof.
  unfold login_for_access_token.
  destruct (authenticate_user db (form_username form_data) (form_password form_data))
    as [[user |] | e] eqn:Hauth; cbn [bind]; try discriminate.
  apply authenticate_user_some in Hauth as [Hget Hpw].
  destruct (create_access_token _ _ _ now) as [tok | e] eqn:Hcreate; cbn [bind];
    [| discriminate].
  intros [= <-]. exists user. repeat split; trivial.
  intros now'. cbn [access_token].
  assert (Hne : timedelta_minutes ACCESS_TOKEN_EXPIRE_MINUTES <> 0)
    by (vm_compute; discriminate).
  rewrite (issued_token_window db user _ now now' tok
             (select_self db _ user Hget) Hne Hcreate).
  unfold ACCESS_TOKEN_EXPIRE_MINUTES, timedelta_minutes.
  now rewrite timegm_add_seconds.
Qed.

Lemma timegm_ahead (now : datetime) (s : Z) :
  0 < s -> ((timegm now + s) * microseconds_per_second <=? now) = false.
Proof.
  intros Hs. apply Z.leb_gt.
  pose proof (timegm_floor now). unfold microseconds_per_second in *. lia.
Qed.

End LookupFacts.

Section RouteFacts.
Context {algorithms_registry : jwt.Algorithms} {pwd_context : CryptContext}.

(** X1.  A successful login means the username has a row whose stored hash
    verifies the password, and the bearer token it returns is good for that
    row from the moment of issuance until 30 minutes after the whole second
    of issuance, and refused from then on. *)
Theorem login_token_window (form_data : OAuth2PasswordRequestForm) (db : Session)
    (now : datetime) (t : Token) :
  login_for_access_token form_data db now = Return t ->
  exists user,
    get_user db (PyStr (form_username form_data)) = Return (Some user)
    /\ verify_password (form_password form_data) (hashed_password user) = Return true
    /\ token_type t = "bearer"
    /\ get_current_user (access_token t) db now = Return user
    /\ forall now',
         get_current_user (access_token t) db now'
         = if (timegm now + 30 * 60) * microseconds_per_second <=? now'
           then Raise credentials_exception else Return user.
Proof.
  intros Hlogin.
  destruct (login_token form_data db now t Hlogin) as (user & Hget & Hpw & Hty & Hwin).
  exists user. cbn [get_user]. rewrite Hget. repeat split; trivial.
  rewrite Hwin. now rewrite timegm_ahead by lia.
Qed.


(** X3.  Activation opens GET /users/me/.  For a token that resolves to a
    user not yet activated, the route answers the 400 "Inactive user"; once
    [account_activation] has run on that token, the same token gets the
    user's username and email with [activated] true, and nothing else of the
    row. *)
Theorem activation_unlocks_read_users_me (token : jwt.token) (db : Session)
    (now : datetime) (user : UserModel) :
  get_current_user token db now = Return user ->
  activated user = false ->
  read_users_me_route token db now = Raise (HTTPException 400 "Inactive user" [])
  /\ read_users_me_route token (snd (account_activation token db now)) now
     = Return {| user_username := username user;
                 user_email := Some (email user);
                 user_full_name := None;
                 user_activated := Some true |}.
Proof.
  intros Hcheck Hinactive. split.
  - unfold read_users_me_route, get_current_active_user.
    now rewrite Hcheck; cbn [bind]; rewrite Hinactive.
  - rewrite account_activation_cases, Hcheck. cbn [snd].
    assert (Hafter : get_current_user token (db_set_activated_commit user db) now
                     = Return (with_activated true user)).
    { apply (get_current_user_transfer token db _ now user); [assumption | | reflexivity].
      now apply select_resolved_after_activation with token now. }
    unfold read_users_me_route. rewrite Hafter. reflexivity.
Qed.

(** X4.  Activating twice is activating once: after a successful
    [account_activation], running it again on the same token succeeds again
    whenever the token still verifies, and whether it succeeds or fails it
    leaves the table exactly as the first run left it. *)
Theorem account_activation_idempotent (token : jwt.token) (db : Session)
    (now now' : datetime) (r : GeneralResponseModel) :
  fst (account_activation token db now) = Return r ->
  snd (account_activation token (snd (account_activation token db now)) now')
  = snd (account_activation token db now)
  /\ fst (account_activation token (snd (account_activation token db now)) now)
     = Return r.
Proof.
  rewrite (account_activation_cases token db now).
  destruct (get_current_user token db now) as [user | e] eqn:Hcheck;
    [| discriminate].
  cbn [fst snd]. intros [= <-].
  assert (Hidem : forall u', id u' = id user ->
            db_set_activated_commit u' (db_set_activated_commit user db)
            = db_set_activated_commit user db).
  { intros u' Hid. unfold db_set_activated_commit.
    rewrite map_map. apply map_ext. intros v. rewrite Hid.
    destruct (id v =? id user) eqn:E; simpl; now rewrite E. }
  pose proof (select_resolved_after_activation token db now user Hcheck) as Hrow.
  pose proof Hcheck as Hres.
  apply get_current_user_resolved in Hres as (j & -> & Hsub & Hget & _).
  split.
  - rewrite account_activation_cases.
    destruct (get_current_user (jwt.compact j) (db_set_activated_commit user db) now')
      as [user' | e'] eqn:Hagain; cbn [snd]; [| reflexivity].
    apply get_current_user_resolved in Hagain as (j' & [= <-] & Hsub' & Hget' & _).
    rewrite Hsub in Hsub'. injection Hsub' as Hname.
    rewrite <- Hname, Hrow in Hget'. injection Hget' as <-.
    now apply Hidem.
  - rewrite account_activation_cases.
    rewrite (get_current_user_transfer (jwt.compact j) db _ now user
               (with_activated true user) Hcheck Hrow eq_refl).
    reflexivity.
Qed.

End RouteFacts.

Section TableLifeFacts.
Context {algorithms_registry : jwt.Algorithms} {pwd_context : CryptContext}.

(** X5.  A successful activation changes one row in one column.  In a table
    that satisfies its constraints, the table keeps its length, every other
    username finds what it found before, and the resolved user's username
    finds the same row with [activated] set to true. *)
Theorem account_activation_frame (token : jwt.token) (db : Session)
    (now : datetime) (r : GeneralResponseModel) :
  wf_db db ->
  fst (account_activation token db now) = Return r ->
  exists user,
    get_current_user token db now = Return user
    /\ List.length (snd (account_activation token db now)) = List.length db
    /\ get_user (snd (account_activation token db now)) (PyStr (username user))
       = Return (Some (with_activated true user))
    /\ activated (with_activated true user) = true
    /\ forall name, name <> username user ->
         get_user (snd (account_activation token db now)) (PyStr name)
         = get_user db (PyStr name).
Proof.
  intros (Hids & _) Hok.
  rewrite account_activation_cases in *.
  destruct (get_current_user token db now) as [user | e] eqn:Hcheck;
    [| discriminate].
  cbn [snd get_user]. exists user.
  pose proof (select_resolved_after_activation token db now user Hcheck) as Hrow.
  apply get_current_user_resolved in Hcheck as (j & _ & _ & Hget & _).
  split; [reflexivity |]. split; [| split; [| split]].
  - unfold db_set_activated_commit. apply length_map.
  - now rewrite Hrow.
  - reflexivity.
  - intros name Hname. f_equal. rewrite select_after_activation.
    destruct (select_by_username db name) as [v |] eqn:Hv; [| reflexivity]. simpl.
    destruct (Z.eqb_spec (id v) (id user)) as [Hid | _]; [| reflexivity].
    exfalso. apply Hname.
    destruct (select_username db name v Hv) as [Hin <-].
    destruct (select_username db _ user Hget) as [Hin' _].
    now rewrite (NoDup_map_eq id db v user Hids Hin Hin' Hid).
Qed.

(** X6.  Registration, failed or not, leaves every existing account as it
    was: a username that found a row still finds that row, a password that
    authenticated still authenticates, and a token that resolved to a user
    still resolves to that user. *)
Theorem register_user_keeps_accounts (request : RegisterUserRequest)
    (tape : entropy) (db : Session) :
  (forall name u,
     get_user db (PyStr name) = Return (Some u) ->
     get_user (snd (register_user request tape db)) (PyStr name) = Return (Some u))
  /\ (forall name password u,
        authenticate_user db name password = Return (Some u) ->
        authenticate_user (snd (register_user request tape db)) name password
        = Return (Some u))
  /\ (forall token now u,
        get_current_user token db now = Return u ->
        get_current_user token (snd (register_user request tape db)) now = Return u).
Proof.
  assert (Hkeep : forall name u,
             select_by_username db name = Some u ->
             select_by_username (snd (register_user request tape db)) name = Some u).
  { intros name u Hget.
    destruct (register_user_table request tape db) as [-> | ->];
      [assumption | now apply select_app_found]. }
  split; [| split].
  - intros name u. cbn [get_user]. intros [= Hget]. now rewrite (Hkeep name u Hget).
  - intros name password u Hauth.
    apply authenticate_user_some in Hauth as [Hget Hpw].
    apply authenticate_user_some. split; [now apply Hkeep | assumption].
  - intros token now u Hok.
    apply (get_current_user_transfer token db _ now u u Hok); [| reflexivity].
    apply Hkeep.
    apply get_current_user_resolved in Hok as (j & _ & _ & Hget & _). exact Hget.
Qed.

Lemma service_step_same_account (db db' : Session) (name : string) (u : UserModel) :
  service_step db db' ->
  select_by_username db name = Some u ->
  exists u', select_by_username db' name = Some u' /\ same_account u u'.
Proof.
  intros Hstep Hget.
  destruct Hstep as [request tape db | token now db].
  - exists u. split.
    + destruct (register_user_table request tape db) as [-> | ->];
        [assumption | now apply select_app_found].
    + unfold same_account. repeat split; trivial.
  - destruct (account_activation_table token db now) as [-> | (user & _ & ->)].
    + exists u. unfold same_account. repeat split; trivial.
    + rewrite select_after_activation, Hget. simpl.
      eexists. split; [reflexivity |].
      unfold same_account.
      destruct (id u =? id user); simpl; repeat split; trivial.
Qed.

(** X7.  No path back.  Through any sequence of registrations and
    activations, on any inputs, an account that exists keeps existing under
    its username, with the same primary key, email, password hash, secret
    key and client id; and once activated it stays activated. *)
Theorem accounts_persist (db db' : Session) (name : string) (u : UserModel) :
  service_steps db db' ->
  get_user db (PyStr name) = Return (Some u) ->
  exists u', get_user db' (PyStr name) = Return (Some u') /\ same_account u u'.
Proof.
  cbn [get_user]. intros Hsteps [= Hget].
  enough (exists u', select_by_username db' name = Some u' /\ same_account u u')
    as (u' & -> & Hsame) by eauto.
  revert u Hget.
  induction Hsteps as [db | db db' db'' _ IH Hstep]; intros u Hget.
  - exists u. unfold same_account. repeat split; trivial.
  - destruct (IH u Hget) as (u' & Hget' & Hsame).
    destruct (service_step_same_account db' db'' name u' Hstep Hget')
      as (u'' & Hget'' & Hsame').
    exists u''. split; [assumption |].
    unfold same_account in *.
    destruct Hsame as (H1 & H2 & H3 & H4 & H5 & H6 & H7).
    destruct Hsame' as (K1 & K2 & K3 & K4 & K5 & K6 & K7).
    repeat split; try congruence. auto.
Qed.

(** X8.  Registration fails only by a password the hashing context refuses
    or by a collision.  [register_user] raises exactly when the password is
    refused (a NUL in it, or more than 4096 characters) or some row already
    holds the requested username, the requested email, the secret key just
    drawn or the client id just drawn.  The exception is passlib's in the
    first case and the integrity error otherwise, and the table is
    untouched. *)
Theorem register_user_fails_iff_collision (request : RegisterUserRequest)
    (tape : entropy) (db : Session) :
  ((exists e, fst (register_user request tape db) = Raise e)
   <-> secret_refused (request_password request) = true
       \/ exists u, In u db
                    /\ (username u = request_username request
                        \/ email u = request_email request
                        \/ secret_key u = drawn_secret_key tape
                        \/ client_id u = drawn_client_id tape))
  /\ forall e, fst (register_user request tape db) = Raise e ->
               e = (if secret_refused (request_password request)
                    then PasswordValueError else IntegrityError)
               /\ snd (register_user request tape db) = db.
Proof.
  rewrite register_user_cases.
  destruct (secret_refused (request_password request)) eqn:Hpw; cbn [fst snd].
  - split; [split; eauto |]. intros e [= <-]. now split.
  - destruct (violates_unique (pending_user request tape) db) eqn:E; cbn [fst snd].
    + split.
      * split; [intros _; right | eauto].
        unfold violates_unique in E. apply existsb_exists in E as (u & Hin & Hu).
        exists u. split; [assumption |].
        cbn [pending_user username email secret_key client_id] in Hu.
        repeat (apply orb_true_iff in Hu as [Hu | Hu]);
          apply String.eqb_eq in Hu; auto.
      * intros e [= <-]. now split.
    + split.
      * split; [intros [e He]; discriminate |].
        intros [Hrefused | (u & Hin & Hcol)]; [discriminate |].
        destruct (proj1 (violates_unique_false _ db) E u Hin) as (H1 & H2 & H3 & H4).
        cbn [pending_user username email secret_key client_id] in *.
        destruct Hcol as [H | [H | [H | H]]]; contradiction.
      * intros e He. discriminate.
Qed.

End TableLifeFacts.
(* ===================================================================== *)
(** * The tables the service reaches *)
(* ===================================================================== *)

Lemma max_of_consecutive (a n : nat) :
  fold_right Z.max 0 (List.map Z.of_nat (seq a n))
  = match n with O => 0 | S _ => Z.of_nat (a + n - 1) end.
Proof.
  revert a. induction n as [| n IH]; intros a; [reflexivity |].
  cbn [seq List.map fold_right]. rewrite IH.
  destruct n; lia.
Qed.

Lemma next_rowid_consecutive (db : Session) :
  List.map id db = List.map Z.of_nat (seq 1 (List.length db)) ->
  next_rowid db = Z.of_nat (List.length db) + 1.
Proof.
  intros Hids. unfold next_rowid.
  assert (Hfold : fold_right (fun u m => Z.max (id u) m) 0 db
                  = fold_right Z.max 0 (List.map id db)).
  { clear Hids. induction db as [| v db IH]; simpl; [reflexivity | now rewrite IH]. }
  rewrite Hfold, Hids, max_of_consecutive.
  destruct (List.length db); lia.
Qed.

Lemma db_set_activated_commit_column {A : Type} (f : UserModel -> A)
    (user : UserModel) (db : Session) :
  (forall u b, f (with_activated b u) = f u) ->
  List.map f (db_set_activated_commit user db) = List.map f db.
Proof.
  intros Hf. unfold db_set_activated_commit. rewrite map_map.
  apply map_ext. intros u. destruct (id u =? id user); [apply Hf | reflexivity].
Qed.

Section ReachableFacts.
Context {algorithms_registry : jwt.Algorithms} {pwd_context : CryptContext}.

Lemma service_step_invariant (db db' : Session) :
  service_step db db' -> table_invariant db -> table_invariant db'.
Proof.
  intros Hstep (Hwf & Hids & Hfmt).
  destruct Hstep as [request tape db | token now db].
  - split; [now apply register_user_wf |].
    destruct (register_user_table request tape db) as [-> | ->];
      [now split |].
    split.
    + rewrite map_app, length_app, Hids. cbn [List.map List.length id with_id].
      rewrite (next_rowid_consecutive db Hids).
      replace (List.length db + 1)%nat with (S (List.length db)) by lia.
      rewrite seq_S, map_app. cbn [List.map]. do 3 f_equal. lia.
    + intros u Hin. apply in_app_iff in Hin as [Hin | [<- | []]];
        [now apply Hfmt |].
      cbn [with_id pending_user secret_key client_id].
      split; [apply generate_random_hex_format | apply generate_client_id_format].
  - destruct (account_activation_table token db now) as [-> | (user & _ & ->)];
      [now split |].
    split; [now apply db_set_activated_commit_wf |]. split.
    + rewrite (db_set_activated_commit_column id) by reflexivity.
      unfold db_set_activated_commit. now rewrite length_map.
    + intros u Hin. unfold db_set_activated_commit in Hin.
      apply in_map_iff in Hin as (v & <- & Hv).
      destruct (id v =? id user); cbn [with_activated secret_key client_id];
        now apply Hfmt.
Qed.

(** X9.  Every table the service can reach from the empty one, by any
    registrations and activations, satisfies the constraints of the schema
    (no primary key, username, email, secret key or client id occurs
    twice), numbers its rows 1, 2, ... in the order they were registered,
    and holds in every row a secret key of 64 lowercase hexadecimal
    characters and a client id of 14 uppercase ones. *)
Theorem reachable_table_invariant (db : Session) :
  reachable db -> table_invariant db.
Proof.
  unfold reachable. intros Hsteps.
  remember [] as start eqn:Hstart.
  induction Hsteps as [db | db db' db'' _ IH Hstep].
  - subst db. split; [apply wf_db_nil |]. split; [reflexivity |]. intros u [].
  - apply (service_step_invariant db' db'' Hstep). now apply IH.
Qed.

(** X10.  Registration, then login, then activation.  Provided the
    password context verifies the password against the hash it has just
    made of it, and the clock is not within 30 minutes of the last date
    Python holds, a successful registration can be followed at once by a
    login with the same username and password: the login returns a token
    that resolves to the new row, which is not activated, so GET /users/me/
    answers the 400; and that same login token, given to
    [account_activation], activates the account. *)
Theorem register_then_login (request : RegisterUserRequest) (tape : entropy)
    (db db' : Session) (resp : RegistrationResponseModel) (now : datetime) :
  register_user request tape db = (Return resp, db') ->
  verify_password (request_password request)
    (context_hash (request_password request) (fst (token_bytes 16 tape)))
  = Return true ->
  representable (now + timedelta_minutes 30) = true ->
  exists t row,
    login_for_access_token
      {| form_username := request_username request;
         form_password := request_password request |} db' now = Return t
    /\ get_user db' (PyStr (request_username request)) = Return (Some row)
    /\ activated row = false
    /\ secret_key row = response_secret_key resp
    /\ get_current_user (access_token t) db' now = Return row
    /\ read_users_me_route (access_token t) db' now
       = Raise (HTTPException 400 "Inactive user" [])
    /\ get_user (snd (account_activation (access_token t) db' now))
                (PyStr (request_username request))
       = Return (Some (with_activated true row))
    /\ activated (with_activated true row) = true.
Proof.
  rewrite register_user_cases.
  destruct (secret_refused (request_password request)); [discriminate |].
  destruct (violates_unique (pending_user request tape) db) eqn:E; [discriminate |].
  intros [= <- <-] Hpw Hrep.
  set (row := with_id (next_rowid db) (pending_user request tape)).
  assert (Hget : select_by_username (db ++ [row]) (request_username request)
                 = Some row).
  { apply (select_snoc_fresh db row). intros u Hu.
    now destruct (proj1 (violates_unique_false _ db) E u Hu) as (H & _). }
  assert (Hauth : authenticate_user (db ++ [row]) (request_username request)
                    (request_password request) = Return (Some row))
    by (apply authenticate_user_some; split; assumption).
  destruct (login_for_access_token
              {| form_username := request_username request;
                 form_password := request_password request |} (db ++ [row]) now)
    as [t | e] eqn:Hlogin.
  2: { unfold login_for_access_token in Hlogin.
       cbn [form_username form_password] in Hlogin.
       rewrite Hauth in Hlogin. cbn [bind] in Hlogin.
       rewrite create_access_token_explicit in Hlogin;
         [discriminate | vm_compute; discriminate | exact Hrep]. }
  destruct (login_token _ _ _ _ Hlogin) as (user & Hget' & _ & _ & Hwin).
  cbn [form_username] in Hget'. rewrite Hget in Hget'. injection Hget' as <-.
  assert (Hcheck : get_current_user (access_token t) (db ++ [row]) now = Return row)
    by (rewrite Hwin; now rewrite timegm_ahead by lia).
  exists t, row. cbn [get_user]. rewrite Hget. repeat split; trivial.
  - unfold read_users_me_route, get_current_active_user. now rewrite Hcheck.
  - rewrite account_activation_cases, Hcheck. cbn [snd].
    rewrite select_after_activation, Hget. simpl. now rewrite Z.eqb_refl.
Qed.

(** X11.  A bearer token from login is an activation token.  Whoever can
    log in as a user can activate that user's account with the token the
    login returned, at any moment the token is still good. *)
Theorem login_token_activates (form_data : OAuth2PasswordRequestForm)
    (db : Session) (now now' : datetime) (t : Token) :
  login_for_access_token form_data db now = Return t ->
  now' < (timegm now + 30 * 60) * microseconds_per_second ->
  exists user,
    get_user db (PyStr (form_username form_data)) = Return (Some user)
    /\ account_activation (access_token t) db now'
       = (Return {| isSuccessful := true;
                    message := "Account activated successfully";
                    data := [] |},
          db_set_activated_commit user db)
    /\ get_user (db_set_activated_commit user db) (PyStr (form_username form_data))
       = Return (Some (with_activated true user))
    /\ activated (with_activated true user) = true.
Proof.
  intros Hlogin Hnow'.
  destruct (login_token _ _ _ _ Hlogin) as (user & Hget & _ & _ & Hwin).
  exists user. cbn [get_user]. rewrite Hget.
  split; [reflexivity |]. split; [| split; [| reflexivity]].
  - rewrite account_activation_cases, Hwin.
    destruct (Z.leb_spec ((timegm now + 30 * 60) * microseconds_per_second) now');
      [lia | reflexivity].
  - rewrite select_after_activation, Hget. simpl. now rewrite Z.eqb_refl.
Qed.

End ReachableFacts.


(* ===================================================================== *)
(** * What the transport answers *)
(* ===================================================================== *)

Section StatusFacts.
Context {algorithms_registry : jwt.Algorithms} {pwd_context : CryptContext}.




End StatusFacts.
(* ===================================================================== *)
(** * Hexadecimal strings keep the bytes *)
(* ===================================================================== *)

Lemma map_eq_pointwise {A B : Type} (f g : A -> B) (l : list A) :
  (forall a, In a l -> f a = g a) <-> List.map f l = List.map g l.
Proof.
  induction l as [| x l IH]; simpl.
  - split; [reflexivity | intros _ a []].
  - split.
    + intros H. f_equal; [apply H; now left |].
      apply IH. intros a Ha. apply H. now right.
    + intros [= Hx Hl] a [<- | Ha]; [assumption | now apply (proj2 IH Hl)].
Qed.

Lemma unhex_byte (b : byte) :
  Byte.of_N (16 * unhex_digit (hex_digit (Byte.to_N b / 16))
             + unhex_digit (hex_digit (Byte.to_N b mod 16)))%N = Some b
  /\ Byte.of_N (16 * unhex_digit (ascii_upper (hex_digit (Byte.to_N b / 16)))
                + unhex_digit (ascii_upper (hex_digit (Byte.to_N b mod 16))))%N
     = Some b.
Proof. destruct b; split; vm_compute; reflexivity. Qed.

Lemma unhexlify_hexlify (bs : list byte) : unhexlify (hexlify bs) = bs.
Proof.
  induction bs as [| b rest IH]; [reflexivity |].
  cbn [hexlify unhexlify]. rewrite (proj1 (unhex_byte b)). now rewrite IH.
Qed.

Lemma unhexlify_upper_hexlify (bs : list byte) : unhexlify (upper (hexlify bs)) = bs.
Proof.
  induction bs as [| b rest IH]; [reflexivity |].
  cbn [hexlify upper unhexlify]. rewrite (proj2 (unhex_byte b)). now rewrite IH.
Qed.

(** X13.  The generated strings keep every random byte.  Reading
    [generate_random_hex(n)] back from hexadecimal gives the [n] bytes that
    were drawn, and likewise the 7 bytes of [generate_client_id()] in spite
    of the change of case; so two draws give the same string only if they
    drew the same bytes.  Each draw leaves the tape at the first byte it did
    not use. *)
Theorem generated_strings_keep_the_bytes (n : nat) (tape tape' : entropy) :
  unhexlify (fst (generate_random_hex n tape)) = List.map tape (seq 0 n)
  /\ unhexlify (fst (generate_client_id tape)) = List.map tape (seq 0 7)
  /\ (fst (generate_random_hex n tape) = fst (generate_random_hex n tape') ->
      forall i, (i < n)%nat -> tape i = tape' i)
  /\ (fst (generate_client_id tape) = fst (generate_client_id tape') ->
      forall i, (i < 7)%nat -> tape i = tape' i)
  /\ (forall i, snd (generate_random_hex n tape) i = tape (n + i)%nat)
  /\ (forall i, snd (generate_client_id tape) i = tape (7 + i)%nat).
Proof.
  assert (Hhex : forall m t,
             unhexlify (fst (generate_random_hex m t)) = List.map t (seq 0 m))
    by (intros m t; apply unhexlify_hexlify).
  assert (Hcid : forall t,
             unhexlify (fst (generate_client_id t)) = List.map t (seq 0 7))
    by (intros t; apply (unhexlify_upper_hexlify (List.map t (seq 0 7)))).
  assert (Hsame : forall m, List.map tape (seq 0 m) = List.map tape' (seq 0 m) ->
                            forall i, (i < m)%nat -> tape i = tape' i).
  { intros m Hmap i Hi.
    apply (proj2 (map_eq_pointwise tape tape' (seq 0 m)) Hmap).
    apply in_seq. lia. }
  split; [apply Hhex |]. split; [apply Hcid |]. split; [| split; [| split]].
  - intros Heq. apply Hsame. rewrite <- !Hhex. now rewrite Heq.
  - intros Heq. apply Hsame. rewrite <- !Hcid. now rewrite Heq.
  - reflexivity.
  - reflexivity.
Qed.


(* ===================================================================== *)
(** * Tokens made outside the service *)
(* ===================================================================== *)

Section MintedTokenFacts.
Context {algorithms_registry : jwt.Algorithms}.


(** X15.  The secret key is enough.  A token that names a user of the
    table under [sub], with an HS256 header and the tag that user's secret
    key gives, is accepted without any login having taken place exactly
    when its claims pass the library's validation: an [exp] still ahead,
    no [nbf] or [iat] in the future, every time claim a number, no
    audience, a [jti] that is a string.  When the claim set is nothing but
    the [sub] and at most an integer [exp], that is until the [exp] when it
    carries one, and at every reading of the clock when it carries none. *)
Theorem token_minted_with_secret_key (db : Session) (u : UserModel)
    (type : string) (c : jwt.claims) (now : datetime) :
  get_user db (PyStr (username u)) = Return (Some u) ->
  jwt.sub c = Some (PyStr (username u)) ->
  let h := {| jwt.alg := ALGORITHM; jwt.typ := type |} in
  let t := jwt.compact {| jwt.protected := h; jwt.payload := c;
                          jwt.signature :=
                            jwt.hmac_sign ALGORITHM (secret_key u) (h, c) |} in
  (get_current_user t db now = Return u <-> claims_valid c now = true)
  /\ (forall expiry,
        c = sub_and_exp (PyStr (username u)) expiry ->
        get_current_user t db now
        = match expiry with
          | Some e => if e * microseconds_per_second <=? now
                      then Raise credentials_exception else Return u
          | None => Return u
          end).
Proof.
  intros Hget Hsub h t. cbn [get_user] in Hget. injection Hget as Hget.
  assert (Hparse : verified_parse (secret_key u)
            {| jwt.protected := h; jwt.payload := c;
               jwt.signature := jwt.hmac_sign ALGORITHM (secret_key u) (h, c) |} now
          = claims_valid c now).
  { unfold verified_parse, signed_by.
    cbn [jwt.protected jwt.payload jwt.signature].
    replace (jwt.alg h) with ALGORITHM by reflexivity.
    now rewrite !String.eqb_refl. }
  assert (Hcases : get_current_user t db now
            = if claims_valid c now then Return u
              else match verified_parse_escape (secret_key u)
                           {| jwt.protected := h; jwt.payload := c;
                              jwt.signature :=
                                jwt.hmac_sign ALGORITHM (secret_key u) (h, c) |} now
                   with
                   | Some e => Raise e
                   | None => Raise credentials_exception
                   end).
  { unfold t. rewrite get_current_user_cases. cbn [jwt.payload].
    rewrite Hsub. cbn [get_user]. now rewrite Hget, Hparse. }
  split.
  - rewrite Hcases.
    destruct (claims_valid c now); [tauto |].
    split; [| discriminate].
    destruct (verified_parse_escape _ _ _); discriminate.
  - intros expiry ->. rewrite Hcases.
    rewrite verified_parse_escape_readable
      by (destruct expiry; reflexivity).
    rewrite sub_and_exp_valid. unfold expired.
    cbn [sub_and_exp jwt.exp]. destruct expiry as [e |]; [| reflexivity].
    cbn [option_map]. now destruct (_ <=? _).
Qed.

End MintedTokenFacts.

(* ===================================================================== *)
(** * Routes and sequences on concrete inputs *)
(* ===================================================================== *)

Section ScenarioRoutes.

#[local] Existing Instance Toy.algorithms.
#[local] Existing Instance Toy.pwd_context.

Lemma alice_logs_in :
  login_for_access_token alice_login [alice] noon = Return alice_token.
Proof. vm_compute. reflexivity. Defined.

Lemma alice_token_resolves :
  get_current_user (access_token alice_token) [alice] noon = Return alice.
Proof. vm_compute. reflexivity. Defined.

Lemma alice_token_resolves_among_two :
  fst (account_activation (access_token alice_token) [alice; bob] noon)
  = Return {| isSuccessful := true;
              message := "Account activated successfully";
              data := [] |}.
Proof. vm_compute. reflexivity. Defined.

(** X1, witness: alice logs in at [noon]. *)
Lemma login_token_window_witness :
  exists user,
    get_user [alice] (PyStr "alice") = Return (Some user)
    /\ verify_password "pw123" (hashed_password user) = Return true
    /\ token_type alice_token = "bearer"
    /\ get_current_user (access_token alice_token) [alice] noon = Return user
    /\ forall now',
         get_current_user (access_token alice_token) [alice] now'
         = if (timegm noon + 30 * 60) * microseconds_per_second <=? now'
           then Raise credentials_exception else Return user.
Proof.
  exact (login_token_window alice_login [alice] noon alice_token alice_logs_in).
Defined.

(** X3, witness: alice, registered and not yet activated. *)
Lemma activation_unlocks_read_users_me_witness :
  read_users_me_route (access_token alice_token) [alice] noon
  = Raise (HTTPException 400 "Inactive user" [])
  /\ read_users_me_route (access_token alice_token)
       (snd (account_activation (access_token alice_token) [alice] noon)) noon
     = Return {| user_username := "alice";
                 user_email := Some "alice@x.com";
                 user_full_name := None;
                 user_activated := Some true |}.
Proof.
  exact (activation_unlocks_read_users_me (access_token alice_token) [alice] noon
           alice alice_token_resolves eq_refl).
Defined.

(** X4, witness: alice's token used twice, the second time a minute later
    and once more at the same moment. *)
Lemma account_activation_idempotent_witness :
  snd (account_activation (access_token alice_token)
         (snd (account_activation (access_token alice_token) [alice; bob] noon))
         (noon + timedelta_minutes 1))
  = snd (account_activation (access_token alice_token) [alice; bob] noon)
  /\ fst (account_activation (access_token alice_token)
            (snd (account_activation (access_token alice_token) [alice; bob] noon))
            noon)
     = Return {| isSuccessful := true;
                 message := "Account activated successfully";
                 data := [] |}.
Proof.
  exact (account_activation_idempotent (access_token alice_token) [alice; bob] noon
           (noon + timedelta_minutes 1) _ alice_token_resolves_among_two).
Defined.

(** X5, witness: alice activated in a table that also holds bob. *)
Lemma account_activation_frame_witness :
  exists user,
    get_current_user (access_token alice_token) [alice; bob] noon = Return user
    /\ List.length (snd (account_activation (access_token alice_token) [alice; bob] noon))
       = List.length [alice; bob]
    /\ get_user (snd (account_activation (access_token alice_token) [alice; bob] noon))
                (PyStr (username user))
       = Return (Some (with_activated true user))
    /\ activated (with_activated true user) = true
    /\ forall name, name <> username user ->
         get_user (snd (account_activation (access_token alice_token) [alice; bob] noon))
                  (PyStr name)
         = get_user [alice; bob] (PyStr name).
Proof.
  exact (account_activation_frame (access_token alice_token) [alice; bob] noon _
           wf_two alice_token_resolves_among_two).
Defined.

(** The table after alice registered, activated her account and bob
    registered, with the requests that lead there. *)
Lemma alice_then_bob_steps :
  service_steps [] [with_activated true alice; bob].
Proof.
  refine (steps_more _ [with_activated true alice] _ _
            (step_register bob_request Toy.tape_b [with_activated true alice])).
  refine (steps_more _ [alice] _ _
            (step_activate (access_token alice_token) noon [alice])).
  exact (steps_more _ [] _ (steps_none [])
           (step_register alice_request Toy.tape_a [])).
Defined.

(** X7, witness: alice, activated, through bob's registration and a second
    activation. *)
Lemma accounts_persist_witness :
  exists u',
    get_user [with_activated true alice; bob] (PyStr "alice") = Return (Some u')
    /\ same_account (with_activated true alice) u'.
Proof.
  refine (accounts_persist [with_activated true alice]
            [with_activated true alice; bob] "alice" (with_activated true alice)
            _ eq_refl).
  refine (steps_more _ [with_activated true alice; bob] _ _
            (step_activate (access_token alice_token) noon
                           [with_activated true alice; bob])).
  exact (steps_more _ [with_activated true alice] _ (steps_none _)
           (step_register bob_request Toy.tape_b [with_activated true alice])).
Defined.

(** X9, witness: the table reached above. *)
Lemma reachable_table_invariant_witness :
  table_invariant [with_activated true alice; bob].
Proof.
  exact (reachable_table_invariant [with_activated true alice; bob]
           alice_then_bob_steps).
Defined.

(** X10, witness: alice registers into the empty table and logs in. *)
Lemma register_then_login_witness :
  exists t row,
    login_for_access_token
      {| form_username := "alice"; form_password := "pw123" |} [alice] noon
    = Return t
    /\ get_user [alice] (PyStr "alice") = Return (Some row)
    /\ activated row = false
    /\ secret_key row = secret_key alice
    /\ get_current_user (access_token t) [alice] noon = Return row
    /\ read_users_me_route (access_token t) [alice] noon
       = Raise (HTTPException 400 "Inactive user" [])
    /\ get_user (snd (account_activation (access_token t) [alice] noon))
                (PyStr "alice")
       = Return (Some (with_activated true row))
    /\ activated (with_activated true row) = true.
Proof.
  refine (register_then_login alice_request Toy.tape_a [] [alice]
            {| response_username := "alice"; response_email := "alice@x.com";
               response_secret_key := secret_key alice;
               response_client_id := client_id alice |} noon _ _ _).
  - vm_compute. reflexivity.
  - vm_compute. reflexivity.
  - vm_compute. reflexivity.
Defined.

(** X11, witness: alice's login token, used to activate ten minutes after
    the login. *)
Lemma login_token_activates_witness :
  exists user,
    get_user [alice] (PyStr "alice") = Return (Some user)
    /\ account_activation (access_token alice_token) [alice]
                          (noon + timedelta_minutes 10)
       = (Return {| isSuccessful := true;
                    message := "Account activated successfully";
                    data := [] |},
          db_set_activated_commit user [alice])
    /\ get_user (db_set_activated_commit user [alice]) (PyStr "alice")
       = Return (Some (with_activated true user))
    /\ activated (with_activated true user) = true.
Proof.
  refine (login_token_activates alice_login [alice] noon
            (noon + timedelta_minutes 10) alice_token alice_logs_in _).
  vm_compute. reflexivity.
Defined.


(** X15, witness: a token with no expiry, tagged under alice's key, a year
    after [noon]. *)
Lemma token_minted_with_secret_key_witness :
  get_current_user
    (jwt.compact
       {| jwt.protected := {| jwt.alg := ALGORITHM; jwt.typ := "JWT" |};
          jwt.payload := sub_and_exp (PyStr "alice") None;
          jwt.signature :=
            jwt.hmac_sign ALGORITHM (secret_key alice)
              ({| jwt.alg := ALGORITHM; jwt.typ := "JWT" |},
               sub_and_exp (PyStr "alice") None) |})
    [alice] (noon + timedelta_minutes (60 * 24 * 365))
  = Return alice.
Proof.
  exact (proj2 (token_minted_with_secret_key [alice] alice "JWT"
                  (sub_and_exp (PyStr "alice") None)
                  (noon + timedelta_minutes (60 * 24 * 365)) eq_refl eq_refl)
               None eq_refl).
Defined.

End ScenarioRoutes.
